(** * ESP-01 MQTT relay: the relay action coordinator and the MQTT session
      manager of the firmware sketch, embedded shallowly.

    The sketch is a set of global variables, a [loop] function that the
    Arduino core calls for ever, and callbacks that the libraries invoke
    from inside [loop].  Globals become a record, every function of the
    sketch becomes a program of a small state monad over that record, and
    the calls into the hardware and into the MQTT client are appended to a
    trace kept next to the globals.

    What the libraries decide (whether a connection succeeds, which
    messages arrive, what the clock reads, whether the button is down) is
    an input of each pass through [loop].  Serial output, the web pages and
    the form validation do not touch the globals and are left out;
    [PUBLISH_ON_ACTION_TOPIC] is not defined by the build, so [report]
    publishes once. *)

From Stdlib Require Import ZArith List String Ascii Bool Lia DecimalString.
Import ListNotations.
Open Scope string_scope.
Open Scope list_scope.
Open Scope Z_scope.

(** ** Machine arithmetic *)

Module Machine.

(** [unsigned long] is 32 bits wide on the ESP8266 and the ESP32. *)
Definition ULONG_MOD : Z := 2 ^ 32.

(** [millis()] at an absolute time of [t] milliseconds since boot. *)
Definition millis (t : Z) : Z := t mod ULONG_MOD.

(** [a - b] on [unsigned long] operands. *)
Definition usub (a b : Z) : Z := (a - b) mod ULONG_MOD.

(** Two's complement wrap-around of an [int] result. *)
Definition wrap_int (x : Z) : Z := (x + 2 ^ 31) mod 2 ^ 32 - 2 ^ 31.

End Machine.
Import Machine.

(** ** Arduino [String] operations used by the sketch *)

Module WString.

(** [String::equals]. *)
Definition equals (a b : string) : bool := String.eqb a b.

(** [String::endsWith]: compares the last [length suffix] characters. *)
Definition endsWith (s suffix : string) : bool :=
  (String.length suffix <=? String.length s)%nat
  && String.eqb
       (substring (String.length s - String.length suffix)
                  (String.length suffix) s)
       suffix.

(** [String::toCharArray(buf, bufsize)]: at most [bufsize - 1] characters
    are copied. *)
Definition toCharArray (s : string) (bufsize : nat) : string :=
  substring 0 (bufsize - 1) s.

(** The [%d] conversion of [printf]. *)
Definition dec (z : Z) : string := NilZero.string_of_int (Z.to_int z).

End WString.
Import WString.

(** ** Constants of the sketch *)

Definition STRING_LEN : nat := 128.
Definition MQTT_TOPIC_PREFIX : string := "devices/".
Definition MQTT_CONNECT_FREQ_LIMIT : Z := 2000.
Definition ACTION_FREQ_LIMIT : Z := 7000.
Definition NO_ACTION : Z := -1.
Definition FLASH_ACTION : Z := -2.
Definition HIGH : Z := 1.
Definition LOW : Z := 0.

(** ** Calls that leave the sketch *)

Inductive Event : Type :=
| Publish (topic payload : string) (retained : bool) (qos : Z)
| Subscribe (topic : string)
| DigitalWrite (pin value : Z)
| Blink (repeatMs : Z) (rate : Z)
| StopCustomBlink
| Delay (ms : Z)
| Restart
| Connect (ok : bool)
| MqttReconnect (t : Z).
(** [Connect ok] is the call of [mqttClient.connect] and its answer.
    [MqttReconnect t] is the line [loop] prints when it decides to try a
    connection; [t] is the absolute time of the tick in milliseconds since
    boot, kept so that attempts can be compared on the real time line rather
    than on the 32-bit clock. *)

(** ** Globals *)

Record St : Type := mkSt {
  needMqttConnect : bool;
  needReset : bool;
  lastMqttConnectionAttempt : Z;
  needAction : Z;
  state : Z;
  lastAction : Z;
  restarted : bool;      (* [ESP.restart()] has been called *)
  trace : list Event     (* calls made so far, oldest first *)
}.

(** The initialisers of the globals. *)
Definition boot : St :=
  {| needMqttConnect := false;
     needReset := false;
     lastMqttConnectionAttempt := 0;
     needAction := NO_ACTION;
     state := LOW;
     lastAction := 0;
     restarted := false;
     trace := [] |}.

(** What [setup] leaves in the configuration globals; they are not written
    afterwards. *)
Record Config : Type := mkConfig {
  thingName : string;
  flashDuration : Z;
  mqttRetain : bool;
  mqttQoS : Z;
  RELAY_PIN : Z;
  BUTTON_PIN : option Z    (* [None]: built with [-DBUTTON_PIN=-1] *)
}.

(** ** A state monad for the sketch *)

Definition Prog (A : Type) : Type := St -> A * St.

Definition ret {A} (a : A) : Prog A := fun s => (a, s).
Definition bind {A B} (m : Prog A) (k : A -> Prog B) : Prog B :=
  fun s => let (a, s') := m s in k a s'.
Definition get : Prog St := fun s => (s, s).
Definition modify (f : St -> St) : Prog unit := fun s => (tt, f s).
Definition exec {A} (m : Prog A) (s : St) : St := snd (m s).
Definition when (b : bool) (m : Prog unit) : Prog unit :=
  if b then m else ret tt.

Declare Scope prog_scope.
Delimit Scope prog_scope with prog.
Notation "x <- m ;; k" := (bind m (fun x => k))
  (at level 61, m at next level, right associativity) : prog_scope.
Notation "m ;; k" := (bind m (fun _ => k))
  (at level 61, right associativity) : prog_scope.
Open Scope prog_scope.

(** Assignments to the globals. *)
Definition set_needMqttConnect (v : bool) : Prog unit :=
  modify (fun s => mkSt v (needReset s) (lastMqttConnectionAttempt s)
                        (needAction s) (state s) (lastAction s)
                        (restarted s) (trace s)).
Definition set_needReset (v : bool) : Prog unit :=
  modify (fun s => mkSt (needMqttConnect s) v (lastMqttConnectionAttempt s)
                        (needAction s) (state s) (lastAction s)
                        (restarted s) (trace s)).
Definition set_lastMqttConnectionAttempt (v : Z) : Prog unit :=
  modify (fun s => mkSt (needMqttConnect s) (needReset s) v
                        (needAction s) (state s) (lastAction s)
                        (restarted s) (trace s)).
Definition set_needAction (v : Z) : Prog unit :=
  modify (fun s => mkSt (needMqttConnect s) (needReset s)
                        (lastMqttConnectionAttempt s)
                        v (state s) (lastAction s)
                        (restarted s) (trace s)).
Definition set_state (v : Z) : Prog unit :=
  modify (fun s => mkSt (needMqttConnect s) (needReset s)
                        (lastMqttConnectionAttempt s)
                        (needAction s) v (lastAction s)
                        (restarted s) (trace s)).
Definition set_lastAction (v : Z) : Prog unit :=
  modify (fun s => mkSt (needMqttConnect s) (needReset s)
                        (lastMqttConnectionAttempt s)
                        (needAction s) (state s) v
                        (restarted s) (trace s)).
Definition set_restarted : Prog unit :=
  modify (fun s => mkSt (needMqttConnect s) (needReset s)
                        (lastMqttConnectionAttempt s)
                        (needAction s) (state s) (lastAction s)
                        true (trace s)).
Definition emit (e : Event) : Prog unit :=
  modify (fun s => mkSt (needMqttConnect s) (needReset s)
                        (lastMqttConnectionAttempt s)
                        (needAction s) (state s) (lastAction s)
                        (restarted s) (trace s ++ [e])).

(** ** What the environment supplies during one pass through [loop] *)

Record Tick : Type := mkTick {
  wifiJustConnected : bool;        (* [doLoop] calls [wifiConnected] *)
  configJustSaved : bool;          (* [doLoop] calls [configSaved] *)
  inbox : list (string * string);  (* messages [mqttClient.loop] delivers *)
  t1 : Z;                          (* time of the first [millis()] *)
  online : bool;                   (* [iotWebConf.getState() == OnLine] *)
  connected : bool;                (* [mqttClient.connected()] *)
  connectOk : bool;                (* answer of [mqttClient.connect] *)
  localIP : string;                (* [WiFi.localIP().toString()] *)
  t2 : Z;                          (* time of the second [millis()] *)
  buttonLow : bool                 (* [digitalRead(BUTTON_PIN) == LOW] *)
}.

(** ** The sketch *)

Section Sketch.

Variable cfg : Config.

(** Topic names, as [setup] builds them. *)
Definition mqttActionTopic : string :=
  toCharArray (MQTT_TOPIC_PREFIX ++ thingName cfg ++ "/action")%string
              STRING_LEN.
Definition mqttStatusTopic : string :=
  toCharArray (MQTT_TOPIC_PREFIX ++ thingName cfg ++ "/status")%string
              STRING_LEN.

Definition report : Prog unit :=
  s <- get ;;
  emit (Publish mqttStatusTopic (if state s =? HIGH then "ON" else "OFF")
                (mqttRetain cfg) (mqttQoS cfg)).

Definition setState (newState : Z) : Prog unit :=
  set_state newState ;;
  s <- get ;;
  emit (DigitalWrite (RELAY_PIN cfg) (state s)) ;;
  (if state s =? HIGH then emit (Blink 5000 95) else emit StopCustomBlink) ;;
  set_needAction NO_ACTION ;;
  report.

Definition wifiConnected : Prog unit := set_needMqttConnect true.

Definition configSaved : Prog unit := set_needReset true.

(** The greeting [connectMqtt] formats with [snprintf] into a buffer of
    [STRING_LEN] bytes. *)
Definition hello (ip : string) : string :=
  substring 0 (STRING_LEN - 1)
    ("HELLO ip=" ++ ip
     ++ " flash=" ++ dec (flashDuration cfg)
     ++ " QoS=" ++ dec (mqttQoS cfg)
     ++ " retain=" ++ (if mqttRetain cfg then "true" else "false"))%string.

(** [ok] is what [mqttClient.connect] answers and [ip] the local address;
    the two-argument [publish] sends unretained with QoS 0. *)
Definition connectMqtt (ok : bool) (ip : string) : Prog bool :=
  emit (Connect ok) ;;
  if negb ok then ret false
  else
    emit (Subscribe mqttActionTopic) ;;
    emit (Publish mqttStatusTopic (hello ip) false 0) ;;
    report ;;
    ret true.

Definition mqttMessageReceived (topic payload : string) : Prog unit :=
  when (endsWith topic "action")
    ((if equals payload "ON" then set_needAction HIGH
      else if equals payload "OFF" then set_needAction LOW
      else if equals payload "TOGGLE" then
        s <- get ;; set_needAction (wrap_int (1 - state s))
      else if equals payload "FLASH" then set_needAction FLASH_ACTION
      else if equals payload "REPORT" then report
      else ret tt) ;;
     s <- get ;;
     when (needAction s =? state s) (set_needAction NO_ACTION)).

(** [iotWebConf.doLoop()], as far as it reaches back into the sketch. *)
Definition doLoop (i : Tick) : Prog unit :=
  when (wifiJustConnected i) wifiConnected ;;
  when (configJustSaved i) configSaved.

(** [mqttClient.loop()] hands the received messages to the callback. *)
Fixpoint deliver (msgs : list (string * string)) : Prog unit :=
  match msgs with
  | [] => ret tt
  | (topic, payload) :: rest =>
      mqttMessageReceived topic payload ;; deliver rest
  end.

(** The connection manager: first [if] of [loop]. *)
Definition reconnectStep (i : Tick) : Prog unit :=
  let now := millis (t1 i) in
  s <- get ;;
  when ((needMqttConnect s || (online i && negb (connected i)))
        && (MQTT_CONNECT_FREQ_LIMIT <? usub now (lastMqttConnectionAttempt s)))
    (set_lastMqttConnectionAttempt now ;;
     emit (MqttReconnect (t1 i)) ;;
     ok <- connectMqtt (connectOk i) (localIP i) ;;
     when ok (set_needMqttConnect false)).

(** Button sampling: compiled in only when [BUTTON_PIN] is defined. *)
Definition buttonStep (buttonIsLow : bool) (now : Z) : Prog unit :=
  match BUTTON_PIN cfg with
  | None => ret tt
  | Some _ =>
      s <- get ;;
      when (buttonIsLow && (ACTION_FREQ_LIMIT <? usub now (lastAction s)))
        (set_needAction (wrap_int (1 - state s)))
  end.

(** The commit step: last [if] of [loop]. *)
Definition actionStep (now : Z) : Prog unit :=
  s <- get ;;
  when (negb (needAction s =? NO_ACTION)
        && (ACTION_FREQ_LIMIT <? usub now (lastAction s)))
    ((if 0 <=? needAction s then setState (needAction s)
      else if needAction s =? FLASH_ACTION then
        setState HIGH ;; emit (Delay (flashDuration cfg)) ;; setState LOW
      else ret tt) ;;
     set_lastAction now).

(** The pending reboot: [iotWebConf.delay(1000)], then [ESP.restart()],
    from which control does not come back. *)
Definition rebootStep : Prog unit :=
  emit (Delay 1000) ;; emit Restart ;; set_restarted.

Definition loop (i : Tick) : Prog unit :=
  doLoop i ;;
  deliver (inbox i) ;;
  reconnectStep i ;;
  s <- get ;;
  if needReset s then rebootStep
  else
    buttonStep (buttonLow i) (millis (t2 i)) ;;
    actionStep (millis (t2 i)).

(** A boot session: [loop] is called again and again until the device
    restarts. *)
Fixpoint run (ticks : list Tick) (s : St) : St :=
  match ticks with
  | [] => s
  | i :: rest => if restarted s then s else run rest (exec (loop i) s)
  end.

(** ** Operations as a transition relation

    Every way in which the globals change: the callbacks and the pieces of
    [loop], in any order.  The runs of [loop] are among its paths. *)

Inductive step : St -> St -> Prop :=
| step_wifiConnected s : step s (exec wifiConnected s)
| step_configSaved s : step s (exec configSaved s)
| step_message s topic payload :
    step s (exec (mqttMessageReceived topic payload) s)
| step_reconnect s i : step s (exec (reconnectStep i) s)
| step_reboot s : step s (exec rebootStep s)
| step_button s b now : step s (exec (buttonStep b now) s)
| step_action s now : step s (exec (actionStep now) s).

Inductive reachable_from (s : St) : St -> Prop :=
| reach_refl : reachable_from s s
| reach_step s1 s2 :
    reachable_from s s1 -> step s1 s2 -> reachable_from s s2.

Definition reachable : St -> Prop := reachable_from boot.

(** ** Vocabulary of the specification *)

(** The pending-action slot holds SetOn or SetOff. *)
Definition pending_target (s : St) : Prop :=
  needAction s = HIGH \/ needAction s = LOW.

(** A pending SetOn or SetOff differs from the relay state. *)
Definition slot_consistent (s : St) : Prop :=
  pending_target s -> needAction s <> state s.

(** The values the relay state and the slot take. *)
Definition well_formed (s : St) : Prop :=
  (state s = LOW \/ state s = HIGH)
  /\ (needAction s = NO_ACTION \/ needAction s = FLASH_ACTION
      \/ needAction s = LOW \/ needAction s = HIGH)
  /\ needAction s <> state s.

(** Payloads of the status reports. *)
Definition statusText (v : Z) : string := if v =? HIGH then "ON" else "OFF".

(** The publish that [report] makes when the relay state is [v]. *)
Definition statusReport (v : Z) : Event :=
  Publish mqttStatusTopic (statusText v) (mqttRetain cfg) (mqttQoS cfg).

(** The calls of one [setState v]. *)
Definition switchEvents (v : Z) : list Event :=
  [DigitalWrite (RELAY_PIN cfg) v;
   (if v =? HIGH then Blink 5000 95 else StopCustomBlink);
   statusReport v].

End Sketch.

(** ** Vocabulary of the proofs *)

Section Observations.

Variable cfg : Config.

(** The test that guards a connection attempt. *)
Definition reconnectDue (i : Tick) (s : St) : bool :=
  (needMqttConnect s || (online i && negb (connected i)))
  && (MQTT_CONNECT_FREQ_LIMIT
      <? usub (millis (t1 i)) (lastMqttConnectionAttempt s)).

(** The test that guards a commit. *)
Definition commitDue (now : Z) (s : St) : bool :=
  negb (needAction s =? NO_ACTION)
  && (ACTION_FREQ_LIMIT <? usub now (lastAction s)).

(** The last statement of the message handler: a slot equal to the relay
    state is emptied. *)
Definition settle (s : St) : St :=
  if needAction s =? state s then exec (set_needAction NO_ACTION) s else s.

(** The payloads the handler knows. *)
Definition recognized (payload : string) : Prop :=
  payload = "ON" \/ payload = "OFF" \/ payload = "TOGGLE"
  \/ payload = "FLASH" \/ payload = "REPORT".

(** Payloads of the publishes to the status topic in a stretch of trace. *)
Fixpoint statusPublishes (tr : list Event) : list string :=
  match tr with
  | [] => []
  | Publish topic payload _ _ :: rest =>
      if String.eqb topic (mqttStatusTopic cfg)
      then payload :: statusPublishes rest
      else statusPublishes rest
  | _ :: rest => statusPublishes rest
  end.

(** The level last written to the relay pin in [tr]; [v] if none was. *)
Fixpoint level (v : Z) (tr : list Event) : Z :=
  match tr with
  | [] => v
  | DigitalWrite _ v' :: rest => level v' rest
  | _ :: rest => level v rest
  end.

(** Every publish of [tr] goes to the status topic and carries either the
    greeting of [connectMqtt] or the text of the relay level at that point
    of the trace, [v] being the level before [tr]. *)
Fixpoint faithful (v : Z) (tr : list Event) : Prop :=
  match tr with
  | [] => True
  | DigitalWrite _ v' :: rest => faithful v' rest
  | Publish topic payload _ _ :: rest =>
      topic = mqttStatusTopic cfg
      /\ (payload = statusText v \/ exists ip, payload = hello cfg ip)
      /\ faithful v rest
  | _ :: rest => faithful v rest
  end.

(** [s'] has the trace of [s] and possibly more. *)
Definition extends (s s' : St) : Prop :=
  exists evs, trace s' = trace s ++ evs.

(** The trace and the relay state after an operation, relative to before:
    what was emitted is faithful and ends at the new relay state. *)
Definition sound_extension (s s' : St) : Prop :=
  exists evs,
    trace s' = trace s ++ evs
    /\ faithful (state s) evs
    /\ level (state s) evs = state s'.

End Observations.

(** The slot holds SetOn, SetOff or FlashPulse. *)
Definition pending (s : St) : Prop :=
  needAction s = HIGH \/ needAction s = LOW \/ needAction s = FLASH_ACTION.

(** The calls of one commit of the pending action of [s]. *)
Definition commitEvents (cfg : Config) (s : St) : list Event :=
  if 0 <=? needAction s then switchEvents cfg (needAction s)
  else switchEvents cfg HIGH ++ [Delay (flashDuration cfg)]
       ++ switchEvents cfg LOW.

(** The relay state a commit of the pending action of [s] ends in. *)
Definition commitResult (s : St) : Z :=
  if 0 <=? needAction s then needAction s else LOW.

(** Times at which [loop] decided to try a connection. *)
Fixpoint attempts (tr : list Event) : list Z :=
  match tr with
  | [] => []
  | MqttReconnect t :: rest => t :: attempts rest
  | _ :: rest => attempts rest
  end.

(** Answers of the calls of [mqttClient.connect]. *)
Fixpoint connects (tr : list Event) : list bool :=
  match tr with
  | [] => []
  | Connect ok :: rest => ok :: connects rest
  | _ :: rest => connects rest
  end.

(** Neighbours in [l] are at least [gap] apart. *)
Fixpoint spaced (gap : Z) (l : list Z) : Prop :=
  match l with
  | a :: rest =>
      match rest with
      | b :: _ => gap <= b - a
      | [] => True
      end /\ spaced gap rest
  | [] => True
  end.

(** The clock never goes back from one reading to the next; [lo] is the
    earliest time of the first reading. *)
Fixpoint chronological (lo : Z) (ticks : list Tick) : Prop :=
  match ticks with
  | [] => True
  | i :: rest => lo <= t1 i /\ t1 i <= t2 i /\ chronological (t2 i) rest
  end.

(** What the connection manager maintains: [l] are the attempts so far, [c]
    the answers received, [stamp] the value of [lastMqttConnectionAttempt],
    [lo] a time already reached.  Boot counts as time 0. *)
Definition paced_at (lo : Z) (l : list Z) (c : list bool) (stamp : Z) : Prop :=
  spaced MQTT_CONNECT_FREQ_LIMIT l
  /\ Forall (fun t => MQTT_CONNECT_FREQ_LIMIT < t) l
  /\ 0 <= last l 0 <= lo
  /\ stamp = millis (last l 0)
  /\ List.length c = List.length l.

Definition paced (lo : Z) (s : St) : Prop :=
  paced_at lo (attempts (trace s)) (connects (trace s))
           (lastMqttConnectionAttempt s).

(** Nothing of the connection manager moved between [s] and [s']. *)
Definition conn_frame (s s' : St) : Prop :=
  attempts (trace s') = attempts (trace s)
  /\ connects (trace s') = connects (trace s)
  /\ lastMqttConnectionAttempt s' = lastMqttConnectionAttempt s.

(** ** A concrete device

    The build of [platformio.ini] (relay on GPIO0, no button) with the
    defaults of the configuration portal. *)

Definition esp01 : Config :=
  {| thingName := "testThing";
     flashDuration := 1000;
     mqttRetain := true;
     mqttQoS := 1;
     RELAY_PIN := 0;
     BUTTON_PIN := None |}.

(** A pass through [loop] at time [t] in which the broker session is up and
    [msgs] are delivered. *)
Definition listening (t : Z) (msgs : list (string * string)) : Tick :=
  {| wifiJustConnected := false;
     configJustSaved := false;
     inbox := msgs;
     t1 := t;
     online := true;
     connected := true;
     connectOk := true;
     localIP := "192.168.4.2";
     t2 := t;
     buttonLow := false |}.

(** A pass through [loop] at time [t] with the network up and no broker
    session; [ok] is the broker's answer if a connection is tried. *)
Definition offline (t : Z) (ok : bool) : Tick :=
  {| wifiJustConnected := false;
     configJustSaved := false;
     inbox := [];
     t1 := t;
     online := true;
     connected := false;
     connectOk := ok;
     localIP := "192.168.4.2";
     t2 := t;
     buttonLow := false |}.

(** The relay is on and a [FLASH] waits in the slot. *)
Definition on_with_flash_pending : St :=
  run esp01 [listening 100 [("devices/testThing/action", "ON")];
             listening 7101 [];
             listening 7200 [("devices/testThing/action", "FLASH")]] boot.

(** The broker refuses, accepts and the session drops again, with [loop]
    running every 700 ms. *)
Definition unreliable_broker : list Tick :=
  [offline 700 false; offline 1400 false; offline 2100 false;
   offline 2800 false; offline 3500 false; offline 4200 true;
   offline 4900 false; offline 5600 false; offline 6300 false].

From Stdlib Require DecimalPos.

(** ** Further vocabulary *)

(** The payloads that write the pending-action slot. *)
Definition slot_command (payload : string) : Prop :=
  payload = "ON" \/ payload = "OFF" \/ payload = "TOGGLE"
  \/ payload = "FLASH".

(** Whether a delivered message is a [REPORT] that the handler accepts. *)
Definition isReportRequest (msg : string * string) : bool :=
  endsWith (fst msg) "action" && equals (snd msg) "REPORT".

(** Number of accepted [REPORT]s among the delivered messages. *)
Definition reportRequests (msgs : list (string * string)) : nat :=
  List.length (filter isReportRequest msgs).

(** The globals the relay side of [loop] reads and writes. *)
Definition relayView (s : St) : Z * Z * Z * bool * bool :=
  (state s, needAction s, lastAction s, needReset s, restarted s).

(** Two passes that differ at most in what the network and the broker do
    and in the time of the first clock reading. *)
Definition sameLocalInputs (i j : Tick) : Prop :=
  configJustSaved i = configJustSaved j
  /\ inbox i = inbox j
  /\ t2 i = t2 j
  /\ buttonLow i = buttonLow j.

Section Commits.

Variable cfg : Config.



(** Every write to the relay pin in [tr] goes to [RELAY_PIN] and is followed
    at once by the matching indicator call and by the publish of the new
    level. *)
Fixpoint switchesReported (tr : list Event) : Prop :=
  match tr with
  | [] => True
  | DigitalWrite pin v :: rest =>
      pin = RELAY_PIN cfg
      /\ (exists rest',
             rest = (if v =? HIGH then Blink 5000 95 else StopCustomBlink)
                    :: statusReport cfg v :: rest')
      /\ switchesReported rest
  | _ :: rest => switchesReported rest
  end.

End Commits.



(** The build of the sketch as it stands, for a board with a button: relay
    on D5 (GPIO14), button on D2 (GPIO4). *)
Definition d1_mini : Config :=
  {| thingName := "testThing";
     flashDuration := 1000;
     mqttRetain := true;
     mqttQoS := 1;
     RELAY_PIN := 14;
     BUTTON_PIN := Some 4 |}.



(** ** The C library, as far as the form validator and [setup] use it *)

Module CLib.

(** [long] and [int] are both 32 bits wide on the ESP8266 and the ESP32. *)
Definition LONG_MAX : Z := 2147483647.
Definition LONG_MIN : Z := -2147483648.
Definition INT_MAX : Z := 2147483647.

(** [isspace] in the C locale: space, and tab to carriage return. *)
Definition isspace (c : ascii) : bool :=
  let n := nat_of_ascii c in
  (n =? 32)%nat || ((9 <=? n)%nat && (n <=? 13)%nat).

(** The value of a decimal digit. *)
Definition digit (c : ascii) : option Z :=
  let n := nat_of_ascii c in
  if (48 <=? n)%nat && (n <=? 57)%nat then Some (Z.of_nat n - 48) else None.

Fixpoint skipSpace (s : string) : string :=
  match s with
  | String c rest => if isspace c then skipSpace rest else s
  | EmptyString => s
  end.

(** The number written by the leading digits of [s], continuing [acc]; [acc]
    itself when [s] does not start with a digit. *)
Fixpoint digitsValue (acc : Z) (s : string) : Z :=
  match s with
  | String c rest =>
      match digit c with
      | Some d => digitsValue (10 * acc + d) rest
      | None => acc
      end
  | EmptyString => acc
  end.

(** A value outside of [long] is replaced by the nearest bound. *)
Definition clamp (z : Z) : Z := Z.max LONG_MIN (Z.min LONG_MAX z).

(** [strtol(s, &end, 10)]: white space, an optional sign, digits; 0 when
    there is no digit; whatever follows the digits is not looked at. *)
Definition strtol (s : string) : Z :=
  match skipSpace s with
  | String "-"%char rest => clamp (- digitsValue 0 rest)
  | String "+"%char rest => clamp (digitsValue 0 rest)
  | rest => clamp (digitsValue 0 rest)
  end.

(** [atoi(s)] is [(int) strtol(s, NULL, 10)]. *)
Definition atoi (s : string) : Z := strtol s.

(** [strcmp(a, b) == 0]. *)
Definition strcmp_eq (a b : string) : bool := String.eqb a b.

End CLib.
Import CLib.

(** ** The configuration form and [setup] *)

(** The error messages the validator attaches to the three parameters. *)
Record FormErrors : Type := mkFormErrors {
  mqttServerError : option string;
  mqttQoSError : option string;
  rqFlashDurationError : option string
}.

(** [arg] is the text of the request argument of the parameter. *)
Definition validate_int_range (arg : string) (min max : Z) : bool :=
  let val := strtol arg in
  (min <=? val) && (val <=? max).

(** The three arguments of the request that the validator reads. *)
Definition formValidator (server qos flash : string) : bool * FormErrors :=
  let valid := true in
  let errors := mkFormErrors None None None in
  let '(valid, errors) :=
    if (Z.of_nat (String.length server) <? 3)
    then (false,
          mkFormErrors (Some "Please provide at least 3 characters!")
                       (mqttQoSError errors) (rqFlashDurationError errors))
    else (valid, errors) in
  let '(valid, errors) :=
    if negb (validate_int_range qos 0 2)
    then (false,
          mkFormErrors (mqttServerError errors)
                       (Some "Please provide a valid QoS")
                       (rqFlashDurationError errors))
    else (valid, errors) in
  let '(valid, errors) :=
    if negb (validate_int_range flash 1 INT_MAX)
    then (false,
          mkFormErrors (mqttServerError errors) (mqttQoSError errors)
                       (Some "Flash duration must be a positive integer (ms)"))
    else (valid, errors) in
  (valid, errors).

(** The character buffers the portal fills from the stored configuration. *)
Record PortalValues : Type := mkPortalValues {
  rqFlashDurationValue : string;
  mqttServerValue : string;
  mqttPortValue : string;
  mqttTlsValue : string;
  mqttUserValue : string;
  mqttPasswordValue : string;
  mqttRetainValue : string;
  mqttQoSValue : string
}.

(** What [setup] computes besides the fields of [Config]. *)
Record Transport : Type := mkTransport {
  mqttPort : Z;
  mqttTls : bool
}.

(** [setup], from the result of [iotWebConf.init()] on: [validConfig] is
    that result, [name] is [iotWebConf.getThingName()], the pins are the
    build flags. *)
Definition setup (validConfig : bool) (name : string) (v : PortalValues)
           (relayPin : Z) (buttonPin : option Z) : Config * Transport :=
  let v := if negb validConfig
           then mkPortalValues EmptyString EmptyString EmptyString EmptyString
                               EmptyString EmptyString EmptyString EmptyString
           else v in
  ({| thingName := name;
      flashDuration := atoi (rqFlashDurationValue v);
      mqttRetain := strcmp_eq (mqttRetainValue v) "selected";
      mqttQoS := atoi (mqttQoSValue v);
      RELAY_PIN := relayPin;
      BUTTON_PIN := buttonPin |},
   {| mqttPort := atoi (mqttPortValue v);
      mqttTls := strcmp_eq (mqttTlsValue v) "selected" |}).

(** Every character of [s] is a decimal digit. *)
Fixpoint allDigits (s : string) : bool :=
  match s with
  | String c rest =>
      match digit c with Some _ => allDigits rest | None => false end
  | EmptyString => true
  end.

(** [s] is empty or starts with a character that is no digit. *)
Definition stopsNumber (s : string) : Prop :=
  match s with
  | String c _ => digit c = None
  | EmptyString => True
  end.

(** [s] is empty or starts with a character that cannot start a number: no
    white space, no sign, no digit. *)
Definition noNumber (s : string) : Prop :=
  match s with
  | String c _ =>
      isspace c = false /\ digit c = None /\ c <> "-"%char /\ c <> "+"%char
  | EmptyString => True
  end.

(** A device whose name has 120 characters. *)
Definition crowded : Config :=
  {| thingName :=
       ("relay-00-relay-01-relay-02-relay-03-relay-04-relay-05-relay-06-"
        ++ "relay-07-relay-08-relay-09-relay-10-relay-11-0123456789ab")%string;
     flashDuration := 1000;
     mqttRetain := true;
     mqttQoS := 1;
     RELAY_PIN := 0;
     BUTTON_PIN := None |}.

(** ** The sketch under [src/], before the fork's changes

    [src/IotWebConf07MqttRelay.ino] is the example the fork started from.
    It has the same globals; it knows [ON] and [OFF] only, publishes the
    state on both topics, always samples the button, and limits the
    connection attempts inside [connectMqtt].  The globals, the events and
    the monad are those of the fork; [flashDuration] is not used. *)

Module Upstream.

Definition MQTT_TOPIC_PREFIX : string := "/devices/".

Section Sketch.

Variable cfg : Config.

Definition mqttActionTopic : string :=
  toCharArray (MQTT_TOPIC_PREFIX ++ thingName cfg ++ "/action")%string
              STRING_LEN.
Definition mqttStatusTopic : string :=
  toCharArray (MQTT_TOPIC_PREFIX ++ thingName cfg ++ "/status")%string
              STRING_LEN.

(** [now] is what [millis()] reads, [t] the absolute time of that reading
    and [ok] the answer of [mqttClient.connect].  [MqttReconnect t] stands
    for the line printed before the call. *)
Definition connectMqtt (t now : Z) (ok : bool) : Prog bool :=
  s <- get ;;
  if 1000 >? usub now (lastMqttConnectionAttempt s) then ret false
  else
    emit (MqttReconnect t) ;;
    emit (Connect ok) ;;
    if negb ok then
      set_lastMqttConnectionAttempt now ;; ret false
    else
      emit (Subscribe mqttActionTopic) ;;
      emit (Publish mqttStatusTopic (if state s =? HIGH then "ON" else "OFF")
                    (mqttRetain cfg) (mqttQoS cfg)) ;;
      emit (Publish mqttActionTopic (if state s =? HIGH then "ON" else "OFF")
                    (mqttRetain cfg) (mqttQoS cfg)) ;;
      ret true.

Definition mqttMessageReceived (topic payload : string) : Prog unit :=
  when (endsWith topic "action")
    (set_needAction (if equals payload "ON" then HIGH else LOW) ;;
     s <- get ;;
     when (needAction s =? state s) (set_needAction NO_ACTION)).

Fixpoint deliver (msgs : list (string * string)) : Prog unit :=
  match msgs with
  | [] => ret tt
  | (topic, payload) :: rest =>
      mqttMessageReceived topic payload ;; deliver rest
  end.

(** The two branches of [loop] that call [connectMqtt]. *)
Definition connectStep (i : Tick) : Prog unit :=
  s <- get ;;
  if needMqttConnect s then
    ok <- connectMqtt (t1 i) (millis (t1 i)) (connectOk i) ;;
    when ok (set_needMqttConnect false)
  else if online i && negb (connected i) then
    _ <- connectMqtt (t1 i) (millis (t1 i)) (connectOk i) ;; ret tt
  else ret tt.

(** Button sampling; [BUTTON_PIN] is always defined in this file. *)
Definition buttonStep (buttonIsLow : bool) (now : Z) : Prog unit :=
  s <- get ;;
  when (buttonIsLow && (ACTION_FREQ_LIMIT <? usub now (lastAction s)))
    (set_needAction (wrap_int (1 - state s))).

(** The commit, written out in [loop]. *)
Definition commitStep (now : Z) : Prog unit :=
  s <- get ;;
  when (negb (needAction s =? NO_ACTION)
        && (ACTION_FREQ_LIMIT <? usub now (lastAction s)))
    (set_state (needAction s) ;;
     s <- get ;;
     emit (DigitalWrite (RELAY_PIN cfg) (state s)) ;;
     (if state s =? HIGH then emit (Blink 5000 95) else emit StopCustomBlink) ;;
     emit (Publish mqttStatusTopic (if state s =? HIGH then "ON" else "OFF")
                   (mqttRetain cfg) (mqttQoS cfg)) ;;
     emit (Publish mqttActionTopic (if state s =? HIGH then "ON" else "OFF")
                   (mqttRetain cfg) (mqttQoS cfg)) ;;
     set_needAction NO_ACTION ;;
     set_lastAction now).

Definition loop (i : Tick) : Prog unit :=
  doLoop i ;;
  deliver (inbox i) ;;
  connectStep i ;;
  s <- get ;;
  if needReset s then rebootStep
  else
    buttonStep (buttonLow i) (millis (t2 i)) ;;
    commitStep (millis (t2 i)).

Fixpoint run (ticks : list Tick) (s : St) : St :=
  match ticks with
  | [] => s
  | i :: rest => if restarted s then s else run rest (exec (loop i) s)
  end.

End Sketch.

(** Attempts with their answers, oldest first. *)
Definition attemptLog (tr : list Event) : list (Z * bool) :=
  combine (attempts tr) (connects tr).

(** An attempt that follows a refused one comes at least 1000 ms later. *)
Fixpoint retryPaced (l : list (Z * bool)) : Prop :=
  match l with
  | (a, ok) :: rest =>
      match rest with
      | (b, _) :: _ => ok = false -> 1000 <= b - a
      | [] => True
      end /\ retryPaced rest
  | [] => True
  end.

End Upstream.

Arguments Upstream.mqttActionTopic : simpl never.
Arguments Upstream.mqttStatusTopic : simpl never.

(** What the rate limit of [connectMqtt] maintains: the attempts so far are
    paced, the last one is not later than [lo], and if it was refused its
    time is in [lastMqttConnectionAttempt]. *)
Definition retry_inv (lo : Z) (s : St) : Prop :=
  List.length (attempts (trace s)) = List.length (connects (trace s))
  /\ Upstream.retryPaced (Upstream.attemptLog (trace s))
  /\ 0 <= lo
  /\ (forall a ok, last (Upstream.attemptLog (trace s)) (0, true) = (a, ok) ->
                   0 <= a <= lo)
  /\ (forall a, last (Upstream.attemptLog (trace s)) (0, true) = (a, false) ->
                lastMqttConnectionAttempt s = millis a).

(** A pass in which nothing reaches the relay side from outside: no
    message, no saved configuration, button up. *)
Definition quiet (i : Tick) : Prop :=
  inbox i = [] /\ configJustSaved i = false /\ buttonLow i = false.

Arguments usub : simpl never.
Arguments millis : simpl never.
Arguments wrap_int : simpl never.
Arguments endsWith : simpl never.
Arguments equals : simpl never.
Arguments mqttActionTopic : simpl never.
Arguments mqttStatusTopic : simpl never.
Arguments hello : simpl never.

(** * Properties *)

(** ** Clock and integer arithmetic *)

Lemma usub_range a b : 0 <= usub a b < ULONG_MOD.
Proof. unfold usub, ULONG_MOD. apply Z.mod_pos_bound. lia. Qed.

Lemma millis_range t : 0 <= millis t < ULONG_MOD.
Proof. unfold millis, ULONG_MOD. apply Z.mod_pos_bound. lia. Qed.

Lemma millis_le t : 0 <= t -> millis t <= t.
Proof. intros Ht. unfold millis, ULONG_MOD. apply Z.mod_le; lia. Qed.

(** The difference of two clock readings never exceeds the time that
    really went by between them. *)
Lemma usub_millis_le a b : a <= b -> usub (millis b) (millis a) <= b - a.
Proof.
  intros Hab. unfold usub, millis.
  rewrite <- Zminus_mod.
  apply Z.mod_le; unfold ULONG_MOD; lia.
Qed.

Lemma usub_zero_r a : 0 <= a < ULONG_MOD -> usub a 0 = a.
Proof.
  intros Ha. unfold usub. rewrite Z.sub_0_r. apply Z.mod_small. exact Ha.
Qed.

Lemma wrap_int_small x : -2147483648 <= x < 2147483648 -> wrap_int x = x.
Proof.
  intros Hx. unfold wrap_int.
  change (2 ^ 32) with 4294967296. change (2 ^ 31) with 2147483648.
  rewrite Z.mod_small; lia.
Qed.

(** [1 - x] never gives [x] back, wrapped or not: the difference is odd. *)
Lemma wrap_int_invert_neq x : wrap_int (1 - x) <> x.
Proof.
  unfold wrap_int. intros H.
  pose proof (Z.div_mod (1 - x + 2 ^ 31) (2 ^ 32) ltac:(lia)) as E.
  set (q := (1 - x + 2 ^ 31) / 2 ^ 32) in *.
  change (2 ^ 32) with 4294967296 in *.
  change (2 ^ 31) with 2147483648 in *.
  lia.
Qed.

Ltac unfold_prog :=
  unfold exec, loop, rebootStep, actionStep, buttonStep, reconnectStep,
    doLoop, mqttMessageReceived, connectMqtt, configSaved, wifiConnected,
    setState, report, when, emit, set_restarted, set_lastAction, set_state,
    set_needAction, set_lastMqttConnectionAttempt, set_needReset,
    set_needMqttConnect, modify, get, bind, ret in *.

Ltac constants := unfold LOW, HIGH, NO_ACTION, FLASH_ACTION in *.

(** Reads a global out of an explicit record or out of an assignment. *)
Ltac fields :=
  cbn [needMqttConnect needReset lastMqttConnectionAttempt needAction state
       lastAction restarted trace exec snd fst modify set_needAction
       set_lastAction set_state set_needReset set_needMqttConnect
       set_lastMqttConnectionAttempt set_restarted emit] in *.

(** ** Running programs *)

Lemma exec_bind {A B} (m : Prog A) (k : A -> Prog B) (s : St) :
  exec (bind m k) s = exec (k (fst (m s))) (snd (m s)).
Proof. unfold exec, bind. destruct (m s). reflexivity. Qed.

Lemma exec_seq {B} (m : Prog unit) (k : Prog B) (s : St) :
  exec (m ;; k) s = exec k (exec m s).
Proof. apply exec_bind. Qed.

Lemma exec_when (b : bool) (m : Prog unit) (s : St) :
  exec (when b m) s = if b then exec m s else s.
Proof. destruct b; reflexivity. Qed.

Lemma exec_ret {A} (a : A) (s : St) : exec (ret a) s = s.
Proof. reflexivity. Qed.

Section Effects.

Variable cfg : Config.

Lemma report_exec (s : St) :
  exec (report cfg) s =
  mkSt (needMqttConnect s) (needReset s) (lastMqttConnectionAttempt s)
       (needAction s) (state s) (lastAction s) (restarted s)
       (trace s ++ [statusReport cfg (state s)]).
Proof. reflexivity. Qed.

Lemma setState_exec (v : Z) (s : St) :
  exec (setState cfg v) s =
  mkSt (needMqttConnect s) (needReset s) (lastMqttConnectionAttempt s)
       NO_ACTION v (lastAction s) (restarted s)
       (trace s ++ switchEvents cfg v).
Proof.
  unfold switchEvents, statusReport, statusText. unfold_prog. simpl.
  destruct (v =? HIGH) eqn:E; simpl; rewrite E, <- !app_assoc; reflexivity.
Qed.

Lemma wifiConnected_exec (s : St) :
  exec wifiConnected s =
  mkSt true (needReset s) (lastMqttConnectionAttempt s)
       (needAction s) (state s) (lastAction s) (restarted s) (trace s).
Proof. reflexivity. Qed.

Lemma configSaved_exec (s : St) :
  exec configSaved s =
  mkSt (needMqttConnect s) true (lastMqttConnectionAttempt s)
       (needAction s) (state s) (lastAction s) (restarted s) (trace s).
Proof. reflexivity. Qed.

Lemma rebootStep_exec (s : St) :
  exec rebootStep s =
  mkSt (needMqttConnect s) (needReset s) (lastMqttConnectionAttempt s)
       (needAction s) (state s) (lastAction s) true
       (trace s ++ [Delay 1000; Restart]).
Proof. unfold_prog. simpl. rewrite <- app_assoc. reflexivity. Qed.

(** [connectMqtt] after a refused connection. *)
Lemma connectMqtt_failed (ip : string) (s : St) :
  connectMqtt cfg false ip s =
  (false,
   mkSt (needMqttConnect s) (needReset s) (lastMqttConnectionAttempt s)
        (needAction s) (state s) (lastAction s) (restarted s)
        (trace s ++ [Connect false])).
Proof. reflexivity. Qed.

(** [connectMqtt] after an accepted connection. *)
Lemma connectMqtt_succeeded (ip : string) (s : St) :
  connectMqtt cfg true ip s =
  (true,
   mkSt (needMqttConnect s) (needReset s) (lastMqttConnectionAttempt s)
        (needAction s) (state s) (lastAction s) (restarted s)
        (trace s ++ [Connect true; Subscribe (mqttActionTopic cfg);
                     Publish (mqttStatusTopic cfg) (hello cfg ip) false 0;
                     statusReport cfg (state s)])).
Proof. unfold_prog. simpl. rewrite <- !app_assoc. reflexivity. Qed.

Lemma reconnectStep_idle (i : Tick) (s : St) :
  reconnectDue i s = false -> exec (reconnectStep cfg i) s = s.
Proof.
  unfold reconnectDue. intros H. unfold_prog. simpl. rewrite H. reflexivity.
Qed.

Lemma reconnectStep_failed (i : Tick) (s : St) :
  reconnectDue i s = true -> connectOk i = false ->
  exec (reconnectStep cfg i) s =
  mkSt (needMqttConnect s) (needReset s) (millis (t1 i))
       (needAction s) (state s) (lastAction s) (restarted s)
       (trace s ++ [MqttReconnect (t1 i); Connect false]).
Proof.
  unfold reconnectDue. intros H Hok. unfold_prog. simpl.
  rewrite H, Hok. simpl. rewrite <- app_assoc. reflexivity.
Qed.

Lemma reconnectStep_succeeded (i : Tick) (s : St) :
  reconnectDue i s = true -> connectOk i = true ->
  exec (reconnectStep cfg i) s =
  mkSt false (needReset s) (millis (t1 i))
       (needAction s) (state s) (lastAction s) (restarted s)
       (trace s ++ [MqttReconnect (t1 i); Connect true;
                    Subscribe (mqttActionTopic cfg);
                    Publish (mqttStatusTopic cfg) (hello cfg (localIP i))
                            false 0;
                    statusReport cfg (state s)]).
Proof.
  unfold reconnectDue. intros H Hok. unfold_prog. simpl.
  rewrite H, Hok. simpl. rewrite <- !app_assoc. reflexivity.
Qed.

Lemma actionStep_held (now : Z) (s : St) :
  commitDue now s = false -> exec (actionStep cfg now) s = s.
Proof.
  unfold commitDue. intros H. unfold_prog. simpl. rewrite H. reflexivity.
Qed.

Lemma actionStep_target (now : Z) (s : St) :
  commitDue now s = true -> 0 <= needAction s ->
  exec (actionStep cfg now) s =
  mkSt (needMqttConnect s) (needReset s) (lastMqttConnectionAttempt s)
       NO_ACTION (needAction s) now (restarted s)
       (trace s ++ switchEvents cfg (needAction s)).
Proof.
  intros H Hpos.
  assert (E : exec (actionStep cfg now) s =
              exec (set_lastAction now) (exec (setState cfg (needAction s)) s)).
  { unfold commitDue in H. apply Z.leb_le in Hpos.
    unfold actionStep. rewrite exec_bind. simpl. rewrite exec_when, H.
    rewrite exec_seq, Hpos. reflexivity. }
  rewrite E, setState_exec. reflexivity.
Qed.

Lemma actionStep_flash (now : Z) (s : St) :
  commitDue now s = true -> needAction s = FLASH_ACTION ->
  exec (actionStep cfg now) s =
  mkSt (needMqttConnect s) (needReset s) (lastMqttConnectionAttempt s)
       NO_ACTION LOW now (restarted s)
       (trace s ++ switchEvents cfg HIGH
                ++ [Delay (flashDuration cfg)]
                ++ switchEvents cfg LOW).
Proof.
  intros H Hflash.
  assert (E : exec (actionStep cfg now) s =
              exec (set_lastAction now)
                (exec (setState cfg LOW)
                   (exec (emit (Delay (flashDuration cfg)))
                      (exec (setState cfg HIGH) s)))).
  { unfold commitDue in H.
    unfold actionStep. rewrite exec_bind. simpl. rewrite exec_when, H.
    rewrite exec_seq, Hflash. simpl. rewrite !exec_seq. reflexivity. }
  rewrite E, !setState_exec. unfold exec, set_lastAction, emit, modify.
  simpl. rewrite <- !app_assoc. reflexivity.
Qed.

(** A slot value that is neither a target nor [FLASH_ACTION] is not
    consumed, only the timestamp moves.  No such value is ever stored. *)
Lemma actionStep_other (now : Z) (s : St) :
  commitDue now s = true -> needAction s < 0 ->
  needAction s <> FLASH_ACTION ->
  exec (actionStep cfg now) s =
  mkSt (needMqttConnect s) (needReset s) (lastMqttConnectionAttempt s)
       (needAction s) (state s) now (restarted s) (trace s).
Proof.
  intros H Hneg Hnf. unfold commitDue in H.
  apply Z.leb_gt in Hneg. apply Z.eqb_neq in Hnf.
  unfold actionStep. rewrite exec_bind. simpl. rewrite exec_when, H.
  rewrite exec_seq, Hneg, Hnf. reflexivity.
Qed.

Lemma buttonStep_exec (b : bool) (now : Z) (s : St) :
  exec (buttonStep cfg b now) s =
  match BUTTON_PIN cfg with
  | None => s
  | Some _ =>
      if b && (ACTION_FREQ_LIMIT <? usub now (lastAction s))
      then exec (set_needAction (wrap_int (1 - state s))) s
      else s
  end.
Proof.
  unfold buttonStep. destruct (BUTTON_PIN cfg); [ | reflexivity ].
  rewrite exec_bind. simpl. rewrite exec_when. reflexivity.
Qed.

Lemma message_other_topic (topic payload : string) (s : St) :
  endsWith topic "action" = false ->
  exec (mqttMessageReceived cfg topic payload) s = s.
Proof. intros H. unfold mqttMessageReceived. rewrite H. reflexivity. Qed.

Lemma message_action_topic (topic payload : string) (s : St) :
  endsWith topic "action" = true ->
  exec (mqttMessageReceived cfg topic payload) s =
  settle
    (exec (if equals payload "ON" then set_needAction HIGH
           else if equals payload "OFF" then set_needAction LOW
           else if equals payload "TOGGLE" then
             s <- get ;; set_needAction (wrap_int (1 - state s))
           else if equals payload "FLASH" then set_needAction FLASH_ACTION
           else if equals payload "REPORT" then report cfg
           else ret tt) s).
Proof.
  intros H. unfold mqttMessageReceived. rewrite H.
  unfold when at 1. rewrite exec_seq, exec_bind. simpl.
  rewrite exec_when. reflexivity.
Qed.

Lemma message_on (topic : string) (s : St) :
  endsWith topic "action" = true ->
  exec (mqttMessageReceived cfg topic "ON") s =
  settle (exec (set_needAction HIGH) s).
Proof. intros H. rewrite message_action_topic by exact H. reflexivity. Qed.

Lemma message_off (topic : string) (s : St) :
  endsWith topic "action" = true ->
  exec (mqttMessageReceived cfg topic "OFF") s =
  settle (exec (set_needAction LOW) s).
Proof. intros H. rewrite message_action_topic by exact H. reflexivity. Qed.

Lemma message_toggle (topic : string) (s : St) :
  endsWith topic "action" = true ->
  exec (mqttMessageReceived cfg topic "TOGGLE") s =
  settle (exec (set_needAction (wrap_int (1 - state s))) s).
Proof. intros H. rewrite message_action_topic by exact H. reflexivity. Qed.

Lemma message_flash (topic : string) (s : St) :
  endsWith topic "action" = true ->
  exec (mqttMessageReceived cfg topic "FLASH") s =
  settle (exec (set_needAction FLASH_ACTION) s).
Proof. intros H. rewrite message_action_topic by exact H. reflexivity. Qed.

Lemma message_report (topic : string) (s : St) :
  endsWith topic "action" = true ->
  exec (mqttMessageReceived cfg topic "REPORT") s =
  settle (exec (report cfg) s).
Proof. intros H. rewrite message_action_topic by exact H. reflexivity. Qed.

Lemma message_unrecognized (topic payload : string) (s : St) :
  endsWith topic "action" = true -> ~ recognized payload ->
  exec (mqttMessageReceived cfg topic payload) s = settle s.
Proof.
  intros H Hn. rewrite message_action_topic by exact H. unfold equals.
  unfold recognized in Hn.
  destruct (String.eqb_spec payload "ON"); [ tauto | ].
  destruct (String.eqb_spec payload "OFF"); [ tauto | ].
  destruct (String.eqb_spec payload "TOGGLE"); [ tauto | ].
  destruct (String.eqb_spec payload "FLASH"); [ tauto | ].
  destruct (String.eqb_spec payload "REPORT"); [ tauto | ].
  reflexivity.
Qed.

(** Every message is one of the seven cases above. *)
Lemma message_cases (topic payload : string) (s : St) :
  let s' := exec (mqttMessageReceived cfg topic payload) s in
  s' = s
  \/ s' = settle s
  \/ s' = settle (exec (report cfg) s)
  \/ exists v, s' = settle (exec (set_needAction v) s)
               /\ (v = HIGH \/ v = LOW \/ v = FLASH_ACTION
                   \/ v = wrap_int (1 - state s)).
Proof.
  simpl. destruct (endsWith topic "action") eqn:Ht.
  2:{ left. apply message_other_topic, Ht. }
  right.
  destruct (String.eqb_spec payload "ON") as [-> | Hon].
  { right; right. exists HIGH. rewrite message_on by exact Ht. tauto. }
  destruct (String.eqb_spec payload "OFF") as [-> | Hoff].
  { right; right. exists LOW. rewrite message_off by exact Ht. tauto. }
  destruct (String.eqb_spec payload "TOGGLE") as [-> | Htog].
  { right; right. exists (wrap_int (1 - state s)).
    rewrite message_toggle by exact Ht. tauto. }
  destruct (String.eqb_spec payload "FLASH") as [-> | Hfl].
  { right; right. exists FLASH_ACTION.
    rewrite message_flash by exact Ht. tauto. }
  destruct (String.eqb_spec payload "REPORT") as [-> | Hrep].
  { right; left. apply message_report, Ht. }
  left. apply message_unrecognized; [ exact Ht | ].
  unfold recognized. tauto.
Qed.

End Effects.

(** ** Invariants of the globals *)

Section Invariants.

Variable cfg : Config.

Lemma settle_exec (s : St) :
  settle s =
  mkSt (needMqttConnect s) (needReset s) (lastMqttConnectionAttempt s)
       (if needAction s =? state s then NO_ACTION else needAction s)
       (state s) (lastAction s) (restarted s) (trace s).
Proof.
  unfold settle. destruct (needAction s =? state s); [ reflexivity | ].
  destruct s; reflexivity.
Qed.

(** Whatever the slot held, [settle] leaves it different from the state,
    provided the state is a pin level. *)
Lemma settle_well_formed (s : St) :
  (state s = LOW \/ state s = HIGH) ->
  (needAction s = NO_ACTION \/ needAction s = FLASH_ACTION
   \/ needAction s = LOW \/ needAction s = HIGH) ->
  well_formed (settle s).
Proof.
  intros Hs Hn. rewrite settle_exec. unfold well_formed. simpl.
  destruct (Z.eqb_spec (needAction s) (state s)); constants; lia.
Qed.

Lemma settle_fixed (s : St) : needAction s <> state s -> settle s = s.
Proof.
  intros H. unfold settle. apply Z.eqb_neq in H. rewrite H. reflexivity.
Qed.

Lemma well_formed_boot : well_formed boot.
Proof. unfold well_formed, boot. simpl. constants. lia. Qed.

Lemma well_formed_step (s s' : St) :
  well_formed s -> step cfg s s' -> well_formed s'.
Proof.
  intros (Hs & Hn & Hd) Hstep. destruct Hstep.
  - rewrite wifiConnected_exec. unfold well_formed. simpl. tauto.
  - rewrite configSaved_exec. unfold well_formed. simpl. tauto.
  - destruct (message_cases cfg topic payload s)
      as [E | [E | [E | (v & E & Hv)]]]; rewrite E; clear E.
    + unfold well_formed. tauto.
    + apply settle_well_formed; assumption.
    + apply settle_well_formed; rewrite report_exec; simpl; assumption.
    + apply settle_well_formed; fields; [ assumption | ].
      destruct Hv as [-> | [-> | [-> | ->]]]; try tauto.
      destruct Hs as [-> | ->]; constants;
        rewrite wrap_int_small by lia; lia.
  - destruct (reconnectDue i s) eqn:Hdue.
    + destruct (connectOk i) eqn:Hok.
      * rewrite (reconnectStep_succeeded cfg i s Hdue Hok).
        unfold well_formed. simpl. tauto.
      * rewrite (reconnectStep_failed cfg i s Hdue Hok).
        unfold well_formed. simpl. tauto.
    + rewrite (reconnectStep_idle cfg i s Hdue). unfold well_formed. tauto.
  - rewrite rebootStep_exec. unfold well_formed. simpl. tauto.
  - rewrite buttonStep_exec. destruct (BUTTON_PIN cfg).
    2:{ unfold well_formed. tauto. }
    destruct (b && (ACTION_FREQ_LIMIT <? usub now (lastAction s))).
    2:{ unfold well_formed. tauto. }
    unfold well_formed. fields.
    destruct Hs as [E | E]; rewrite E; constants;
      rewrite wrap_int_small by lia; lia.
  - destruct (commitDue now s) eqn:Hdue.
    2:{ rewrite (actionStep_held cfg now s Hdue). unfold well_formed. tauto. }
    destruct Hn as [Hn | [Hn | Hn]].
    + unfold commitDue in Hdue. apply Z.eqb_eq in Hn. rewrite Hn in Hdue.
      discriminate.
    + rewrite (actionStep_flash cfg now s Hdue Hn).
      unfold well_formed. simpl. constants. lia.
    + rewrite (actionStep_target cfg now s Hdue) by (constants; lia).
      unfold well_formed. simpl. constants. lia.
Qed.

Lemma reachable_from_well_formed (s s' : St) :
  well_formed s -> reachable_from cfg s s' -> well_formed s'.
Proof.
  intros Hwf Hr. induction Hr as [ | s1 s2 _ IH Hstep ].
  - exact Hwf.
  - exact (well_formed_step s1 s2 IH Hstep).
Qed.

Lemma reachable_well_formed (s : St) : reachable cfg s -> well_formed s.
Proof. apply reachable_from_well_formed, well_formed_boot. Qed.

End Invariants.

(** ** The pending-action slot *)

Section Slot.

Variable cfg : Config.

Lemma settle_consistent (s : St) : slot_consistent (settle s).
Proof.
  rewrite settle_exec. unfold slot_consistent, pending_target. fields.
  destruct (Z.eqb_spec (needAction s) (state s)); constants; lia.
Qed.

Lemma message_consistent (topic payload : string) (s : St) :
  endsWith topic "action" = true ->
  slot_consistent (exec (mqttMessageReceived cfg topic payload) s).
Proof.
  intros H. rewrite message_action_topic by exact H. apply settle_consistent.
Qed.

Lemma button_consistent (b : bool) (now : Z) (s : St) :
  slot_consistent s -> slot_consistent (exec (buttonStep cfg b now) s).
Proof.
  intros Hs. rewrite buttonStep_exec.
  destruct (BUTTON_PIN cfg); [ | exact Hs ].
  destruct (b && (ACTION_FREQ_LIMIT <? usub now (lastAction s)));
    [ | exact Hs ].
  unfold slot_consistent. fields. intros _. apply wrap_int_invert_neq.
Qed.

(** A commit that is due empties the slot. *)
Lemma commit_clears_slot (now : Z) (s : St) :
  commitDue now s = true ->
  0 <= needAction s \/ needAction s = FLASH_ACTION ->
  needAction (exec (actionStep cfg now) s) = NO_ACTION.
Proof.
  intros Hdue [Hpos | Hflash].
  - rewrite (actionStep_target cfg now s Hdue Hpos). reflexivity.
  - rewrite (actionStep_flash cfg now s Hdue Hflash). reflexivity.
Qed.

Lemma action_consistent (now : Z) (s : St) :
  slot_consistent s -> slot_consistent (exec (actionStep cfg now) s).
Proof.
  intros Hs. destruct (commitDue now s) eqn:Hdue.
  2:{ rewrite (actionStep_held cfg now s Hdue). exact Hs. }
  destruct (Z.eq_dec (needAction s) FLASH_ACTION) as [Hflash | Hnf].
  { rewrite (actionStep_flash cfg now s Hdue Hflash).
    unfold slot_consistent, pending_target. fields. constants. lia. }
  destruct (Z_lt_le_dec (needAction s) 0) as [Hneg | Hpos].
  - rewrite (actionStep_other cfg now s Hdue Hneg Hnf).
    unfold slot_consistent, pending_target in *. fields. constants. lia.
  - rewrite (actionStep_target cfg now s Hdue Hpos).
    unfold slot_consistent, pending_target. fields. constants. lia.
Qed.

Lemma slot_consistent_step (s s' : St) :
  slot_consistent s -> step cfg s s' -> slot_consistent s'.
Proof.
  intros Hs Hstep. destruct Hstep.
  - rewrite wifiConnected_exec. exact Hs.
  - rewrite configSaved_exec. exact Hs.
  - destruct (endsWith topic "action") eqn:Ht.
    + apply message_consistent, Ht.
    + rewrite message_other_topic by exact Ht. exact Hs.
  - destruct (reconnectDue i s) eqn:Hdue.
    + destruct (connectOk i) eqn:Hok.
      * rewrite (reconnectStep_succeeded cfg i s Hdue Hok). exact Hs.
      * rewrite (reconnectStep_failed cfg i s Hdue Hok). exact Hs.
    + rewrite (reconnectStep_idle cfg i s Hdue). exact Hs.
  - rewrite rebootStep_exec. exact Hs.
  - apply button_consistent, Hs.
  - apply action_consistent, Hs.
Qed.

Lemma slot_consistent_reachable_from (s s' : St) :
  slot_consistent s -> reachable_from cfg s s' -> slot_consistent s'.
Proof.
  intros Hs Hr. induction Hr as [ | s1 s2 _ IH Hstep ].
  - exact Hs.
  - exact (slot_consistent_step s1 s2 IH Hstep).
Qed.

Lemma slot_consistent_boot : slot_consistent boot.
Proof.
  unfold slot_consistent, pending_target, boot. fields. constants. lia.
Qed.

End Slot.

(** ** Runs of [loop] stay within the transition relation *)

Section Runs.

Variable cfg : Config.

Lemma reachable_from_trans (s1 s2 s3 : St) :
  reachable_from cfg s1 s2 -> reachable_from cfg s2 s3 ->
  reachable_from cfg s1 s3.
Proof.
  intros H12 H23. induction H23 as [ | s s' _ IH Hstep ].
  - exact H12.
  - exact (reach_step cfg s1 s s' IH Hstep).
Qed.

Lemma reachable_from_one (s s' : St) :
  step cfg s s' -> reachable_from cfg s s'.
Proof. intros H. exact (reach_step cfg s s s' (reach_refl cfg s) H). Qed.

Lemma doLoop_exec (i : Tick) (s : St) :
  exec (doLoop i) s =
  let s1 := if wifiJustConnected i then exec wifiConnected s else s in
  if configJustSaved i then exec configSaved s1 else s1.
Proof.
  unfold doLoop. rewrite exec_seq, !exec_when. reflexivity.
Qed.

Lemma deliver_cons (topic payload : string) (rest : list (string * string))
      (s : St) :
  exec (deliver cfg ((topic, payload) :: rest)) s =
  exec (deliver cfg rest) (exec (mqttMessageReceived cfg topic payload) s).
Proof. simpl. apply exec_seq. Qed.

(** [loop], one statement after the other. *)
Lemma loop_exec (i : Tick) (s : St) :
  exec (loop cfg i) s =
  let s1 := exec (doLoop i) s in
  let s2 := exec (deliver cfg (inbox i)) s1 in
  let s3 := exec (reconnectStep cfg i) s2 in
  if needReset s3 then exec rebootStep s3
  else exec (actionStep cfg (millis (t2 i)))
         (exec (buttonStep cfg (buttonLow i) (millis (t2 i))) s3).
Proof.
  unfold loop. rewrite !exec_seq, exec_bind.
  cbn [get fst snd].
  destruct (needReset _); [ reflexivity | ].
  rewrite exec_seq. reflexivity.
Qed.

Lemma doLoop_reachable (i : Tick) (s : St) :
  reachable_from cfg s (exec (doLoop i) s).
Proof.
  rewrite doLoop_exec. cbv zeta.
  assert (H1 : reachable_from cfg s
                 (if wifiJustConnected i then exec wifiConnected s else s)).
  { destruct (wifiJustConnected i).
    - apply reachable_from_one, step_wifiConnected.
    - apply reach_refl. }
  destruct (configJustSaved i); [ | exact H1 ].
  eapply reach_step; [ exact H1 | apply step_configSaved ].
Qed.

Lemma deliver_reachable (msgs : list (string * string)) (s : St) :
  reachable_from cfg s (exec (deliver cfg msgs) s).
Proof.
  revert s. induction msgs as [ | [topic payload] rest IH ]; intros s.
  - apply reach_refl.
  - rewrite deliver_cons.
    eapply reachable_from_trans; [ | apply IH ].
    apply reachable_from_one, step_message.
Qed.

Lemma loop_reachable (i : Tick) (s : St) :
  reachable_from cfg s (exec (loop cfg i) s).
Proof.
  rewrite loop_exec. cbv zeta.
  set (s1 := exec (doLoop i) s).
  set (s2 := exec (deliver cfg (inbox i)) s1).
  set (s3 := exec (reconnectStep cfg i) s2).
  assert (H3 : reachable_from cfg s s3).
  { eapply reachable_from_trans; [ apply doLoop_reachable | ].
    eapply reachable_from_trans; [ apply deliver_reachable | ].
    apply reachable_from_one, step_reconnect. }
  destruct (needReset s3).
  - eapply reach_step; [ exact H3 | apply step_reboot ].
  - eapply reach_step; [ | apply step_action ].
    eapply reach_step; [ exact H3 | apply step_button ].
Qed.

Lemma run_reachable (ticks : list Tick) (s : St) :
  reachable_from cfg s (run cfg ticks s).
Proof.
  revert s. induction ticks as [ | i rest IH ]; intros s; simpl.
  - apply reach_refl.
  - destruct (restarted s); [ apply reach_refl | ].
    eapply reachable_from_trans; [ apply loop_reachable | apply IH ].
Qed.

End Runs.

(** ** The message handler *)

(** The handler looks at the end of the topic only.  The topic the sketch
    subscribes to passes the test as long as the device name leaves room for
    the whole topic in its buffer. *)

Lemma substring_whole (s : string) (n : nat) :
  (String.length s <= n)%nat -> substring 0 n s = s.
Proof.
  revert n. induction s as [ | c s IH ]; intros n Hn.
  - destruct n; reflexivity.
  - destruct n as [ | n ]; simpl in Hn; [ lia | ].
    simpl. rewrite IH by lia. reflexivity.
Qed.

Lemma length_append (a b : string) :
  String.length (a ++ b)%string = (String.length a + String.length b)%nat.
Proof. induction a as [ | c a IH ]; simpl; [ | rewrite IH ]; reflexivity. Qed.

Lemma append_assoc (a b c : string) :
  (a ++ (b ++ c))%string = ((a ++ b) ++ c)%string.
Proof. induction a as [ | x a IH ]; simpl; [ | rewrite IH ]; reflexivity. Qed.

Lemma substring_suffix (a b : string) :
  substring (String.length a) (String.length b) (a ++ b)%string = b.
Proof.
  induction a as [ | c a IH ]; simpl.
  - apply substring_whole. lia.
  - exact IH.
Qed.

Lemma endsWith_append (a b : string) : endsWith (a ++ b)%string b = true.
Proof.
  unfold endsWith. rewrite length_append.
  replace (String.length a + String.length b - String.length b)%nat
    with (String.length a) by lia.
  rewrite substring_suffix, String.eqb_refl, andb_true_r.
  apply Nat.leb_le. lia.
Qed.

Lemma action_topic_accepted (cfg : Config) :
  (String.length (thingName cfg) <= 112)%nat ->
  endsWith (mqttActionTopic cfg) "action" = true.
Proof.
  intros Hlen. unfold mqttActionTopic, toCharArray, MQTT_TOPIC_PREFIX.
  rewrite substring_whole.
  - change "/action" with ("/" ++ "action")%string.
    rewrite !append_assoc. apply endsWith_append.
  - rewrite !length_append. unfold STRING_LEN. simpl. lia.
Qed.

(** C4: in every state the program reaches, a [REPORT] on the action topic
    makes exactly one publish, to the status topic, with the text of the
    relay state; the relay state, the pending-action slot and the time of the
    last commit stay as they were, so the debounce test gives the same
    answer before and after. *)
Theorem report_command_publishes_once_and_keeps_state :
  forall (cfg : Config) (s : St) (topic : string),
    reachable cfg s ->
    endsWith topic "action" = true ->
    let s' := exec (mqttMessageReceived cfg topic "REPORT") s in
    trace s' =
      trace s ++ [Publish (mqttStatusTopic cfg) (statusText (state s))
                          (mqttRetain cfg) (mqttQoS cfg)]
    /\ state s' = state s
    /\ needAction s' = needAction s
    /\ lastAction s' = lastAction s
    /\ (forall now, commitDue now s' = commitDue now s).
Proof.
  intros cfg s topic Hr Ht s'.
  destruct (reachable_well_formed cfg s Hr) as (_ & _ & Hd).
  assert (E : s' = exec (report cfg) s).
  { unfold s'. rewrite message_report by exact Ht.
    apply settle_fixed. rewrite report_exec. exact Hd. }
  rewrite E, report_exec. unfold commitDue. fields. tauto.
Qed.

Lemma report_command_witness :
  let s := exec (mqttMessageReceived esp01 "devices/testThing/action" "ON")
             boot in
  let s' := exec (mqttMessageReceived esp01 "devices/testThing/action"
                    "REPORT") s in
  trace s' = [Publish "devices/testThing/status" "OFF" true 1]
  /\ state s' = LOW /\ needAction s' = HIGH /\ lastAction s' = 0.
Proof.
  intros s s'.
  assert (Hr : reachable esp01 s).
  { apply reachable_from_one, step_message. }
  destruct (report_command_publishes_once_and_keeps_state
              esp01 s "devices/testThing/action" Hr eq_refl)
    as (Htr & Hst & Hna & Hla & _).
  fold s' in Htr, Hst, Hna, Hla.
  rewrite Htr, Hst, Hna, Hla. vm_compute. tauto.
Defined.

(** C6: an [ON] that arrives while the relay is on, or an [OFF] while it is
    off, is dropped by the handler: the relay state, the trace and the time
    of the last commit are untouched, the slot is left empty, and the commit
    step that follows does nothing, whatever the clock reads. *)
Theorem redundant_command_is_discarded :
  forall (cfg : Config) (s : St) (topic payload : string),
    endsWith topic "action" = true ->
    (payload = "ON" /\ state s = HIGH) \/ (payload = "OFF" /\ state s = LOW) ->
    let s' := exec (mqttMessageReceived cfg topic payload) s in
    state s' = state s
    /\ trace s' = trace s
    /\ lastAction s' = lastAction s
    /\ needAction s' = NO_ACTION
    /\ (forall now, exec (actionStep cfg now) s' = s').
Proof.
  intros cfg s topic payload Ht Hcase s'.
  assert (E : s' = exec (set_needAction NO_ACTION) s).
  { unfold s'. destruct Hcase as [[-> Hs] | [-> Hs]].
    - rewrite message_on by exact Ht. rewrite settle_exec. fields.
      rewrite Hs, Z.eqb_refl. reflexivity.
    - rewrite message_off by exact Ht. rewrite settle_exec. fields.
      rewrite Hs, Z.eqb_refl. reflexivity. }
  rewrite E. fields.
  do 4 (split; [ reflexivity | ]).
  intros now. apply actionStep_held. reflexivity.
Qed.

Lemma redundant_command_witness :
  let s' := exec (mqttMessageReceived esp01 "devices/testThing/action" "OFF")
              boot in
  state s' = LOW /\ trace s' = [] /\ lastAction s' = 0
  /\ needAction s' = NO_ACTION
  /\ exec (actionStep esp01 9000) s' = s'.
Proof.
  destruct (redundant_command_is_discarded
              esp01 boot "devices/testThing/action" "OFF" eq_refl
              (or_intror (conj eq_refl eq_refl)))
    as (Hst & Htr & Hla & Hna & Hact).
  cbv zeta. rewrite Hst, Htr, Hla, Hna, Hact. vm_compute. tauto.
Defined.

(** C7: in every state the program reaches, a message on the action topic
    whose payload is none of [ON], [OFF], [TOGGLE], [FLASH], [REPORT] leaves
    every global and the trace as they were; the handler has no failing
    outcome. *)
Theorem unrecognized_payload_is_ignored :
  forall (cfg : Config) (s : St) (topic payload : string),
    reachable cfg s ->
    endsWith topic "action" = true ->
    ~ recognized payload ->
    exec (mqttMessageReceived cfg topic payload) s = s.
Proof.
  intros cfg s topic payload Hr Ht Hn.
  destruct (reachable_well_formed cfg s Hr) as (_ & _ & Hd).
  rewrite message_unrecognized by assumption.
  apply settle_fixed, Hd.
Qed.

Lemma lowercase_on_unrecognized : ~ recognized "on".
Proof.
  unfold recognized. intros [H | [H | [H | [H | H]]]]; discriminate H.
Qed.

Lemma unrecognized_payload_witness :
  let s := exec (mqttMessageReceived esp01 "devices/testThing/action" "FLASH")
             boot in
  exec (mqttMessageReceived esp01 "devices/testThing/action" "on") s = s.
Proof.
  intros s.
  apply (unrecognized_payload_is_ignored esp01 s "devices/testThing/action"
           "on").
  - apply reachable_from_one, step_message.
  - reflexivity.
  - exact lowercase_on_unrecognized.
Defined.

(** C9: a pending SetOn or SetOff always differs from the relay state.
    The property survives every sequence of operations; the message handler
    (on the action topic) and the button sampling each leave it true from
    whatever state they start in or find it true, and a commit that is due
    leaves the slot empty. *)
Theorem pending_target_differs_from_state :
  forall (cfg : Config) (s s' s0 : St),
    slot_consistent s ->
    reachable_from cfg s s' ->
    slot_consistent s'
    /\ (forall topic payload,
           endsWith topic "action" = true ->
           slot_consistent (exec (mqttMessageReceived cfg topic payload) s0))
    /\ (forall b now, slot_consistent (exec (buttonStep cfg b now) s'))
    /\ (forall b now,
           needAction (exec (buttonStep cfg b now) s0) <> needAction s0 ->
           needAction (exec (buttonStep cfg b now) s0)
           <> state (exec (buttonStep cfg b now) s0))
    /\ (forall now,
           commitDue now s0 = true ->
           0 <= needAction s0 \/ needAction s0 = FLASH_ACTION ->
           needAction (exec (actionStep cfg now) s0) = NO_ACTION).
Proof.
  intros cfg s s' s0 Hs Hr.
  pose proof (slot_consistent_reachable_from cfg s s' Hs Hr) as Hs'.
  split; [ exact Hs' | ].
  split; [ intros topic payload Ht; apply message_consistent, Ht | ].
  split; [ intros b now; apply button_consistent, Hs' | ].
  split; [ | intros now; apply commit_clears_slot ].
  intros b now. rewrite buttonStep_exec.
  destruct (BUTTON_PIN cfg); [ | congruence ].
  destruct (b && (ACTION_FREQ_LIMIT <? usub now (lastAction s0)));
    [ | congruence ].
  fields. intros _. apply wrap_int_invert_neq.
Qed.

Lemma pending_target_witness :
  slot_consistent
    (run esp01 [listening 100 [("devices/testThing/action", "TOGGLE")];
                listening 8000 []] boot).
Proof.
  refine (proj1 (pending_target_differs_from_state esp01 boot _ boot
                   slot_consistent_boot _)).
  apply run_reachable.
Defined.

(** ** The commit step *)

Lemma commitDue_true (now : Z) (s : St) :
  needAction s <> NO_ACTION ->
  ACTION_FREQ_LIMIT < usub now (lastAction s) ->
  commitDue now s = true.
Proof.
  intros Hn Hlt. unfold commitDue.
  apply Z.eqb_neq in Hn. apply Z.ltb_lt in Hlt. rewrite Hn, Hlt. reflexivity.
Qed.

Lemma commitDue_false (now : Z) (s : St) :
  usub now (lastAction s) <= ACTION_FREQ_LIMIT ->
  commitDue now s = false.
Proof.
  intros Hle. unfold commitDue.
  apply Z.ltb_ge in Hle. rewrite Hle. apply andb_false_r.
Qed.

Lemma pending_not_empty (s : St) : pending s -> needAction s <> NO_ACTION.
Proof. unfold pending. constants. lia. Qed.

(** C5: with an action pending, the commit step commits exactly when the
    clock difference is strictly greater than [ACTION_FREQ_LIMIT] (7000): the
    slot is emptied, the time of the last commit becomes [now], the relay
    state becomes the target and the switch and its report are emitted.  At a
    difference of 7000 or less nothing at all changes, so the action stays
    pending. *)
Theorem commit_iff_debounce_exceeded :
  forall (cfg : Config) (s : St) (now : Z),
    pending s ->
    let s' := exec (actionStep cfg now) s in
    (ACTION_FREQ_LIMIT < usub now (lastAction s) ->
       needAction s' = NO_ACTION
       /\ lastAction s' = now
       /\ state s' = commitResult s
       /\ trace s' = trace s ++ commitEvents cfg s)
    /\ (usub now (lastAction s) <= ACTION_FREQ_LIMIT -> s' = s)
    /\ (s' <> s <-> ACTION_FREQ_LIMIT < usub now (lastAction s)).
Proof.
  intros cfg s now Hp s'.
  pose proof (pending_not_empty s Hp) as Hne.
  assert (Hcommit : ACTION_FREQ_LIMIT < usub now (lastAction s) ->
            needAction s' = NO_ACTION /\ lastAction s' = now
            /\ state s' = commitResult s
            /\ trace s' = trace s ++ commitEvents cfg s).
  { intros Hlt. pose proof (commitDue_true now s Hne Hlt) as Hdue.
    unfold s', commitResult, commitEvents.
    destruct Hp as [Hv | [Hv | Hv]].
    - rewrite (actionStep_target cfg now s Hdue)
        by (rewrite Hv; constants; lia).
      rewrite Hv. fields. tauto.
    - rewrite (actionStep_target cfg now s Hdue)
        by (rewrite Hv; constants; lia).
      rewrite Hv. fields. tauto.
    - rewrite (actionStep_flash cfg now s Hdue Hv).
      rewrite Hv. fields. repeat split. }
  assert (Hheld : usub now (lastAction s) <= ACTION_FREQ_LIMIT -> s' = s).
  { intros Hle. apply actionStep_held, commitDue_false, Hle. }
  split; [ exact Hcommit | ]. split; [ exact Hheld | ].
  split.
  - intros Hneq.
    destruct (Z_lt_le_dec ACTION_FREQ_LIMIT (usub now (lastAction s)))
      as [Hlt | Hle]; [ exact Hlt | ].
    elim Hneq. apply Hheld, Hle.
  - intros Hlt Heq. destruct (Hcommit Hlt) as (Hna & _).
    rewrite Heq in Hna. exact (Hne Hna).
Qed.

Lemma commit_iff_debounce_exceeded_witness :
  let s := exec (mqttMessageReceived esp01 "devices/testThing/action" "ON")
             boot in
  let s' := exec (actionStep esp01 7001) s in
  needAction s' = NO_ACTION /\ lastAction s' = 7001 /\ state s' = HIGH
  /\ trace s' = [DigitalWrite 0 1; Blink 5000 95;
                 Publish "devices/testThing/status" "ON" true 1].
Proof.
  intros s s'.
  assert (Hp : pending s) by (left; reflexivity).
  destruct (commit_iff_debounce_exceeded esp01 s 7001 Hp) as (Hcommit & _).
  fold s' in Hcommit.
  destruct Hcommit as (Hna & Hla & Hst & Htr); [ vm_compute; reflexivity | ].
  rewrite Hna, Hla, Hst, Htr. vm_compute. tauto.
Defined.

(** Against C5 as worded: an [ON] is pending on a relay that is off and
    exactly 7000 ms have gone by since the last commit, yet neither the
    commit step nor a whole pass through [loop] commits it. *)
Lemma commit_at_exact_interval_counterexample :
  let s := exec (mqttMessageReceived esp01 "devices/testThing/action" "ON")
             boot in
  needAction s = HIGH
  /\ state s = LOW
  /\ usub (millis 7000) (lastAction s) >= ACTION_FREQ_LIMIT
  /\ exec (actionStep esp01 (millis 7000)) s = s
  /\ exec (loop esp01 (listening 7000 [])) s = s.
Proof. vm_compute. intuition congruence. Qed.

(** C1: a FlashPulse that is committed leaves the relay off, whatever it
    was before: the output goes high and [ON] is reported, the loop waits for
    the flash duration, the output goes low and [OFF] is reported last.  The
    relay state is back at its value before the pulse exactly when that value
    was off. *)
Theorem flash_pulse_ends_off :
  forall (cfg : Config) (s : St) (now : Z),
    needAction s = FLASH_ACTION ->
    ACTION_FREQ_LIMIT < usub now (lastAction s) ->
    let s' := exec (actionStep cfg now) s in
    state s' = LOW
    /\ trace s' =
         trace s ++
         [DigitalWrite (RELAY_PIN cfg) HIGH; Blink 5000 95;
          Publish (mqttStatusTopic cfg) "ON" (mqttRetain cfg) (mqttQoS cfg);
          Delay (flashDuration cfg);
          DigitalWrite (RELAY_PIN cfg) LOW; StopCustomBlink;
          Publish (mqttStatusTopic cfg) "OFF" (mqttRetain cfg) (mqttQoS cfg)]
    /\ needAction s' = NO_ACTION
    /\ lastAction s' = now
    /\ (state s' = state s <-> state s = LOW).
Proof.
  intros cfg s now Hflash Hlt s'.
  assert (Hdue : commitDue now s = true).
  { apply commitDue_true; [ rewrite Hflash; constants; lia | exact Hlt ]. }
  unfold s'. rewrite (actionStep_flash cfg now s Hdue Hflash). fields.
  split; [ reflexivity | ]. split; [ reflexivity | ].
  split; [ reflexivity | ]. split; [ reflexivity | ].
  split; intros H; congruence.
Qed.

Lemma flash_pulse_witness :
  let s' := exec (actionStep esp01 15000) on_with_flash_pending in
  state s' = LOW /\ needAction s' = NO_ACTION /\ lastAction s' = 15000.
Proof.
  destruct (flash_pulse_ends_off esp01 on_with_flash_pending 15000)
    as (Hst & _ & Hna & Hla & _).
  - reflexivity.
  - vm_compute. reflexivity.
  - cbv zeta. rewrite Hst, Hna, Hla. tauto.
Defined.

(** Against C1 as worded: the relay is on before the pulse; the pass through
    [loop] that commits the pulse leaves it off, and the last report says
    [OFF], not [ON]. *)
Lemma flash_pulse_counterexample :
  let pre := on_with_flash_pending in
  let post := exec (loop esp01 (listening 15000 [])) pre in
  state pre = HIGH
  /\ needAction pre = FLASH_ACTION
  /\ needAction post = NO_ACTION
  /\ state post <> state pre
  /\ last (trace post) Restart
     = Publish "devices/testThing/status" "OFF" true 1.
Proof. vm_compute. intuition congruence. Qed.

(** ** What is published *)

Section Reports.

Variable cfg : Config.

Lemma level_app (v : Z) (a b : list Event) :
  level v (a ++ b) = level (level v a) b.
Proof.
  revert v. induction a as [ | e a IH ]; intros v; [ reflexivity | ].
  destruct e; simpl; apply IH.
Qed.

Lemma faithful_app (v : Z) (a b : list Event) :
  faithful cfg v (a ++ b) <-> faithful cfg v a /\ faithful cfg (level v a) b.
Proof.
  revert v. induction a as [ | e a IH ]; intros v; simpl; [ tauto | ].
  destruct e; simpl; rewrite ?IH; tauto.
Qed.

Lemma faithful_In (v : Z) (tr : list Event) (topic payload : string)
      (r : bool) (q : Z) :
  faithful cfg v tr -> In (Publish topic payload r q) tr ->
  topic = mqttStatusTopic cfg
  /\ (payload = "ON" \/ payload = "OFF" \/ exists ip, payload = hello cfg ip).
Proof.
  revert v. induction tr as [ | e tr IH ]; intros v Hf Hin; [ destruct Hin | ].
  destruct Hin as [-> | Hin].
  - simpl in Hf. destruct Hf as (Ht & Hp & _). split; [ exact Ht | ].
    destruct Hp as [-> | Hp]; [ | tauto ].
    unfold statusText. destruct (v =? HIGH); tauto.
  - destruct e; simpl in Hf; try (eapply IH; eassumption).
    destruct Hf as (_ & _ & Hf). eapply IH; eassumption.
Qed.

(** The greeting is never mistaken for a state report. *)
Lemma hello_not_status (ip : string) (v : Z) : hello cfg ip <> statusText v.
Proof.
  unfold hello, statusText, STRING_LEN. simpl.
  destruct (v =? HIGH); discriminate.
Qed.

Lemma switchEvents_level (w v : Z) : level w (switchEvents cfg v) = v.
Proof. unfold switchEvents. simpl. destruct (v =? HIGH); reflexivity. Qed.

Lemma switchEvents_faithful (w v : Z) : faithful cfg w (switchEvents cfg v).
Proof. unfold switchEvents. simpl. destruct (v =? HIGH); simpl; tauto. Qed.

Lemma sound_extension_same (s s' : St) :
  trace s' = trace s -> state s' = state s -> sound_extension cfg s s'.
Proof.
  intros Ht Hs. exists []. rewrite app_nil_r. simpl. auto.
Qed.

Lemma settle_sound (s0 s : St) :
  sound_extension cfg s0 s -> sound_extension cfg s0 (settle s).
Proof.
  intros (evs & Ht & Hf & Hl). exists evs. rewrite settle_exec. fields. auto.
Qed.

Lemma step_sound (s s' : St) : step cfg s s' -> sound_extension cfg s s'.
Proof.
  intros Hstep. destruct Hstep.
  - apply sound_extension_same; reflexivity.
  - apply sound_extension_same; reflexivity.
  - destruct (message_cases cfg topic payload s)
      as [E | [E | [E | (v & E & _)]]]; rewrite E; clear E.
    + apply sound_extension_same; reflexivity.
    + apply settle_sound, sound_extension_same; reflexivity.
    + apply settle_sound. rewrite report_exec.
      exists [statusReport cfg (state s)]. simpl. tauto.
    + apply settle_sound, sound_extension_same; reflexivity.
  - destruct (reconnectDue i s) eqn:Hdue.
    + destruct (connectOk i) eqn:Hok.
      * rewrite (reconnectStep_succeeded cfg i s Hdue Hok).
        eexists. fields. split; [ reflexivity | ]. simpl.
        split; [ | reflexivity ].
        split; [ reflexivity | ]. split; [ right; eexists; reflexivity | ].
        tauto.
      * rewrite (reconnectStep_failed cfg i s Hdue Hok).
        eexists. fields. split; [ reflexivity | ]. simpl. tauto.
    + rewrite (reconnectStep_idle cfg i s Hdue).
      apply sound_extension_same; reflexivity.
  - rewrite rebootStep_exec. eexists. fields.
    split; [ reflexivity | ]. simpl. tauto.
  - rewrite buttonStep_exec. destruct (BUTTON_PIN cfg).
    2:{ apply sound_extension_same; reflexivity. }
    destruct (b && (ACTION_FREQ_LIMIT <? usub now (lastAction s)));
      apply sound_extension_same; reflexivity.
  - destruct (commitDue now s) eqn:Hdue.
    2:{ rewrite (actionStep_held cfg now s Hdue).
        apply sound_extension_same; reflexivity. }
    destruct (Z.eq_dec (needAction s) FLASH_ACTION) as [Hflash | Hnf].
    { rewrite (actionStep_flash cfg now s Hdue Hflash).
      eexists. fields. split; [ reflexivity | ]. simpl. tauto. }
    destruct (Z_lt_le_dec (needAction s) 0) as [Hneg | Hpos].
    + rewrite (actionStep_other cfg now s Hdue Hneg Hnf).
      apply sound_extension_same; reflexivity.
    + rewrite (actionStep_target cfg now s Hdue Hpos).
      exists (switchEvents cfg (needAction s)). fields.
      split; [ reflexivity | ].
      split; [ apply switchEvents_faithful | apply switchEvents_level ].
Qed.

Lemma sound_extension_trans (s1 s2 s3 : St) :
  sound_extension cfg s1 s2 -> sound_extension cfg s2 s3 ->
  sound_extension cfg s1 s3.
Proof.
  intros (a & Ha & Hfa & Hla) (b & Hb & Hfb & Hlb).
  exists (a ++ b). rewrite Hb, Ha, app_assoc.
  split; [ reflexivity | ].
  rewrite faithful_app, level_app, Hla. tauto.
Qed.

Lemma reachable_from_sound (s s' : St) :
  reachable_from cfg s s' -> sound_extension cfg s s'.
Proof.
  intros Hr. induction Hr as [ | s1 s2 _ IH Hstep ].
  - apply sound_extension_same; reflexivity.
  - exact (sound_extension_trans s s1 s2 IH (step_sound s1 s2 Hstep)).
Qed.

Lemma reachable_from_extends (s s' : St) :
  reachable_from cfg s s' -> extends s s'.
Proof.
  intros Hr. destruct (reachable_from_sound s s' Hr) as (evs & Ht & _).
  exists evs. exact Ht.
Qed.

End Reports.

(** C3: every publish of the program goes to the status topic and carries
    either the [HELLO] line that [connectMqtt] sends or the text of the
    relay state at the moment of the publish, which is exactly [ON] or
    [OFF]; the two kinds never coincide, and [report] always sends the text
    of the current relay state. *)
Theorem status_publishes_are_greeting_or_state :
  forall (cfg : Config) (s : St),
    reachable cfg s ->
    faithful cfg LOW (trace s)
    /\ level LOW (trace s) = state s
    /\ (forall topic payload r q,
           In (Publish topic payload r q) (trace s) ->
           topic = mqttStatusTopic cfg
           /\ (payload = "ON" \/ payload = "OFF"
               \/ exists ip, payload = hello cfg ip))
    /\ (forall ip v, hello cfg ip <> statusText v)
    /\ trace (exec (report cfg) s) =
         trace s ++ [Publish (mqttStatusTopic cfg)
                             (if state s =? HIGH then "ON" else "OFF")
                             (mqttRetain cfg) (mqttQoS cfg)].
Proof.
  intros cfg s Hr.
  destruct (reachable_from_sound cfg boot s Hr) as (evs & Ht & Hf & Hl).
  simpl in Ht. rewrite Ht.
  split; [ exact Hf | ]. split; [ exact Hl | ].
  split; [ intros topic payload r q; apply faithful_In with (v := LOW), Hf | ].
  split; [ apply hello_not_status | ].
  rewrite report_exec. fields. rewrite Ht. reflexivity.
Qed.

Lemma status_publishes_witness :
  level LOW (trace on_with_flash_pending) = HIGH.
Proof.
  destruct (status_publishes_are_greeting_or_state esp01 on_with_flash_pending)
    as (_ & Hl & _).
  - apply run_reachable.
  - rewrite Hl. reflexivity.
Defined.

(** Against C3 as worded: the first connection publishes a line on the
    status topic that is neither [ON] nor [OFF]. *)
Lemma greeting_on_status_topic_counterexample :
  let s := run esp01 [offline 2001 true] boot in
  mqttStatusTopic esp01 = "devices/testThing/status"
  /\ In (Publish "devices/testThing/status"
                 "HELLO ip=192.168.4.2 flash=1000 QoS=1 retain=true" false 0)
        (trace s)
  /\ "HELLO ip=192.168.4.2 flash=1000 QoS=1 retain=true" <> "ON"
  /\ "HELLO ip=192.168.4.2 flash=1000 QoS=1 retain=true" <> "OFF".
Proof.
  split; [ reflexivity | ].
  split; [ vm_compute; tauto | ].
  split; discriminate.
Qed.

(** C2: when [loop] tries a connection and the broker accepts, [connectMqtt]
    publishes twice to the status topic, at once: the [HELLO] line, then one
    report of the relay state.  Both come before anything the rest of the
    pass emits, a commit included, and whether the attempt is made does not
    depend on the time of the last commit. *)
Theorem connect_publishes_greeting_then_state :
  forall (cfg : Config) (i : Tick) (s : St),
    let s0 := exec (deliver cfg (inbox i)) (exec (doLoop i) s) in
    let connectEvents :=
      [MqttReconnect (t1 i); Connect true; Subscribe (mqttActionTopic cfg);
       Publish (mqttStatusTopic cfg) (hello cfg (localIP i)) false 0;
       Publish (mqttStatusTopic cfg) (statusText (state s0))
               (mqttRetain cfg) (mqttQoS cfg)] in
    reconnectDue i s0 = true ->
    connectOk i = true ->
    (exists rest,
        trace (exec (loop cfg i) s) = trace s0 ++ connectEvents ++ rest)
    /\ statusPublishes cfg connectEvents
       = [hello cfg (localIP i); statusText (state s0)]
    /\ connectMqtt cfg true (localIP i) s0
       = (true,
          mkSt (needMqttConnect s0) (needReset s0)
               (lastMqttConnectionAttempt s0) (needAction s0) (state s0)
               (lastAction s0) (restarted s0)
               (trace s0 ++ [Connect true; Subscribe (mqttActionTopic cfg);
                             Publish (mqttStatusTopic cfg)
                                     (hello cfg (localIP i)) false 0;
                             Publish (mqttStatusTopic cfg)
                                     (statusText (state s0))
                                     (mqttRetain cfg) (mqttQoS cfg)]))
    /\ (forall v, reconnectDue i (exec (set_lastAction v) s0) = true).
Proof.
  intros cfg i s s0 connectEvents Hdue Hok.
  split; [ | split; [ | split ] ].
  - rewrite loop_exec. cbv zeta. fold s0.
    set (s3 := exec (reconnectStep cfg i) s0).
    assert (H3 : trace s3 = trace s0 ++ connectEvents).
    { unfold s3. rewrite (reconnectStep_succeeded cfg i s0 Hdue Hok).
      reflexivity. }
    assert (Hext : extends s3
              (if needReset s3 then exec rebootStep s3
               else exec (actionStep cfg (millis (t2 i)))
                      (exec (buttonStep cfg (buttonLow i) (millis (t2 i)))
                         s3))).
    { apply (reachable_from_extends cfg). destruct (needReset s3).
      - apply reachable_from_one, step_reboot.
      - eapply reach_step; [ | apply step_action ].
        apply reachable_from_one, step_button. }
    destruct Hext as (rest & Hrest). exists rest.
    rewrite Hrest, H3, app_assoc. reflexivity.
  - unfold connectEvents. simpl. rewrite String.eqb_refl. reflexivity.
  - apply connectMqtt_succeeded.
  - intros v. exact Hdue.
Qed.

Lemma connect_publishes_witness :
  exists rest,
    trace (exec (loop esp01 (offline 2001 true)) boot)
    = [MqttReconnect 2001; Connect true;
       Subscribe "devices/testThing/action";
       Publish "devices/testThing/status"
               "HELLO ip=192.168.4.2 flash=1000 QoS=1 retain=true" false 0;
       Publish "devices/testThing/status" "OFF" true 1] ++ rest.
Proof.
  destruct (connect_publishes_greeting_then_state
              esp01 (offline 2001 true) boot eq_refl eq_refl)
    as ((rest & Hrest) & _).
  exists rest. rewrite Hrest. reflexivity.
Defined.

(** Against C2 as worded: after the first accepted connection two messages
    have been published to the status topic, not one, and no commit was
    involved. *)
Lemma connect_publishes_twice_counterexample :
  let s := exec (loop esp01 (offline 2001 true)) boot in
  statusPublishes esp01 (trace s)
  = ["HELLO ip=192.168.4.2 flash=1000 QoS=1 retain=true"; "OFF"]
  /\ List.length (statusPublishes esp01 (trace s)) = 2%nat
  /\ needAction s = NO_ACTION
  /\ lastAction s = 0.
Proof. vm_compute. tauto. Qed.

(** ** The pace of connection attempts *)

Lemma attempts_app (a b : list Event) :
  attempts (a ++ b) = attempts a ++ attempts b.
Proof.
  induction a as [ | e a IH ]; [ reflexivity | ].
  destruct e; simpl; rewrite ?IH; reflexivity.
Qed.

Lemma connects_app (a b : list Event) :
  connects (a ++ b) = connects a ++ connects b.
Proof.
  induction a as [ | e a IH ]; [ reflexivity | ].
  destruct e; simpl; rewrite ?IH; reflexivity.
Qed.

Lemma spaced_snoc (gap x : Z) (l : list Z) :
  spaced gap l -> (l <> [] -> gap <= x - last l 0) ->
  spaced gap (l ++ [x]).
Proof.
  induction l as [ | a l IH ]; intros Hs Hx.
  - simpl. tauto.
  - destruct l as [ | b l ].
    + simpl. split; [ | tauto ]. apply Hx. discriminate.
    + destruct Hs as (Hab & Hs).
      change ((a :: b :: l) ++ [x]) with (a :: (b :: l) ++ [x]).
      split; [ exact Hab | ].
      apply IH; [ exact Hs | ]. intros _. apply Hx. discriminate.
Qed.

Lemma paced_weaken (lo lo' : Z) (s : St) :
  lo <= lo' -> paced lo s -> paced lo' s.
Proof.
  unfold paced, paced_at. intros Hle (Hs & Hf & Hl & Hst & Hc).
  repeat split; try assumption; lia.
Qed.

Lemma paced_frame (lo : Z) (s s' : St) :
  conn_frame s s' -> paced lo s -> paced lo s'.
Proof.
  unfold paced. intros (Ha & Hc & Hl) H. rewrite Ha, Hc, Hl. exact H.
Qed.

Lemma conn_frame_refl (s : St) : conn_frame s s.
Proof. unfold conn_frame. tauto. Qed.

Lemma conn_frame_trans (s1 s2 s3 : St) :
  conn_frame s1 s2 -> conn_frame s2 s3 -> conn_frame s1 s3.
Proof.
  unfold conn_frame. intros (A1 & C1 & L1) (A2 & C2 & L2).
  rewrite A2, C2, L2. tauto.
Qed.

Lemma paced_boot : paced 0 boot.
Proof.
  unfold paced, paced_at, boot. simpl.
  repeat split; try constructor; try reflexivity; lia.
Qed.

Section Pace.

Variable cfg : Config.

Lemma switchEvents_quiet (v : Z) :
  attempts (switchEvents cfg v) = [] /\ connects (switchEvents cfg v) = [].
Proof.
  unfold switchEvents. simpl. destruct (v =? HIGH); split; reflexivity.
Qed.

Lemma conn_frame_quiet (s s' : St) (evs : list Event) :
  trace s' = trace s ++ evs ->
  attempts evs = [] -> connects evs = [] ->
  lastMqttConnectionAttempt s' = lastMqttConnectionAttempt s ->
  conn_frame s s'.
Proof.
  intros Ht Ha Hc Hl. unfold conn_frame.
  rewrite Ht, attempts_app, connects_app, Ha, Hc, !app_nil_r. tauto.
Qed.

Lemma settle_conn_frame (s0 s : St) :
  conn_frame s0 s -> conn_frame s0 (settle s).
Proof. unfold conn_frame. rewrite settle_exec. fields. tauto. Qed.

Lemma message_conn_frame (topic payload : string) (s : St) :
  conn_frame s (exec (mqttMessageReceived cfg topic payload) s).
Proof.
  destruct (message_cases cfg topic payload s)
    as [E | [E | [E | (v & E & _)]]]; rewrite E; clear E.
  - apply conn_frame_refl.
  - apply settle_conn_frame, conn_frame_refl.
  - apply settle_conn_frame. rewrite report_exec.
    apply conn_frame_quiet with (evs := [statusReport cfg (state s)]);
      reflexivity.
  - apply settle_conn_frame. unfold conn_frame. fields. tauto.
Qed.

Lemma deliver_conn_frame (msgs : list (string * string)) (s : St) :
  conn_frame s (exec (deliver cfg msgs) s).
Proof.
  revert s. induction msgs as [ | [topic payload] rest IH ]; intros s.
  - apply conn_frame_refl.
  - rewrite deliver_cons.
    eapply conn_frame_trans; [ apply message_conn_frame | apply IH ].
Qed.

Lemma doLoop_conn_frame (i : Tick) (s : St) :
  conn_frame s (exec (doLoop i) s).
Proof.
  rewrite doLoop_exec. cbv zeta.
  destruct (wifiJustConnected i), (configJustSaved i);
    unfold conn_frame; fields; tauto.
Qed.

Lemma reboot_conn_frame (s : St) : conn_frame s (exec rebootStep s).
Proof.
  rewrite rebootStep_exec.
  apply conn_frame_quiet with (evs := [Delay 1000; Restart]); reflexivity.
Qed.

Lemma button_conn_frame (b : bool) (now : Z) (s : St) :
  conn_frame s (exec (buttonStep cfg b now) s).
Proof.
  rewrite buttonStep_exec. destruct (BUTTON_PIN cfg).
  2:{ apply conn_frame_refl. }
  destruct (b && (ACTION_FREQ_LIMIT <? usub now (lastAction s)));
    unfold conn_frame; fields; tauto.
Qed.

Lemma action_conn_frame (now : Z) (s : St) :
  conn_frame s (exec (actionStep cfg now) s).
Proof.
  destruct (commitDue now s) eqn:Hdue.
  2:{ rewrite (actionStep_held cfg now s Hdue). apply conn_frame_refl. }
  destruct (Z.eq_dec (needAction s) FLASH_ACTION) as [Hflash | Hnf].
  { rewrite (actionStep_flash cfg now s Hdue Hflash).
    eapply conn_frame_quiet; fields; reflexivity. }
  destruct (Z_lt_le_dec (needAction s) 0) as [Hneg | Hpos].
  - rewrite (actionStep_other cfg now s Hdue Hneg Hnf).
    unfold conn_frame. fields. tauto.
  - rewrite (actionStep_target cfg now s Hdue Hpos).
    destruct (switchEvents_quiet (needAction s)) as (Ha & Hc).
    eapply conn_frame_quiet; fields; try reflexivity; assumption.
Qed.

(** No attempt while the clock difference has not passed the limit. *)
Lemma reconnectStep_too_early (i : Tick) (s : St) :
  usub (millis (t1 i)) (lastMqttConnectionAttempt s)
  <= MQTT_CONNECT_FREQ_LIMIT ->
  exec (reconnectStep cfg i) s = s.
Proof.
  intros Hle. apply reconnectStep_idle. unfold reconnectDue.
  apply Z.ltb_ge in Hle. rewrite Hle. apply andb_false_r.
Qed.

Lemma reconnect_paced (lo : Z) (i : Tick) (s : St) :
  paced lo s -> lo <= t1 i ->
  paced (t1 i) (exec (reconnectStep cfg i) s).
Proof.
  intros Hp Hlo. destruct (reconnectDue i s) eqn:Hdue.
  2:{ rewrite (reconnectStep_idle cfg i s Hdue).
      exact (paced_weaken lo (t1 i) s Hlo Hp). }
  destruct Hp as (Hs & Hf & Hl & Hst & Hc).
  assert (Hgap : MQTT_CONNECT_FREQ_LIMIT
                 < t1 i - last (attempts (trace s)) 0).
  { unfold reconnectDue in Hdue. apply andb_prop in Hdue.
    destruct Hdue as (_ & Hlt). apply Z.ltb_lt in Hlt. rewrite Hst in Hlt.
    pose proof (usub_millis_le (last (attempts (trace s)) 0) (t1 i)
                  ltac:(lia)).
    lia. }
  assert (Hnew : forall ok rest,
            attempts rest = [] -> List.length (connects rest) = 0%nat ->
            paced_at (t1 i)
              (attempts (trace s ++ MqttReconnect (t1 i) :: Connect ok :: rest))
              (connects (trace s ++ MqttReconnect (t1 i) :: Connect ok :: rest))
              (millis (t1 i))).
  { intros ok rest Ha Hcr. rewrite attempts_app, connects_app. simpl.
    rewrite Ha. unfold paced_at. rewrite last_last.
    split; [ apply spaced_snoc; [ exact Hs | intros _; lia ] | ].
    split; [ apply Forall_app; split;
             [ exact Hf | constructor; [ lia | constructor ] ] | ].
    split; [ lia | ]. split; [ reflexivity | ].
    rewrite !length_app. simpl. rewrite Hcr, Hc. reflexivity. }
  destruct (connectOk i) eqn:Hok.
  - rewrite (reconnectStep_succeeded cfg i s Hdue Hok).
    unfold paced. fields. apply Hnew; reflexivity.
  - rewrite (reconnectStep_failed cfg i s Hdue Hok).
    unfold paced. fields. apply Hnew; reflexivity.
Qed.

Lemma loop_paced (lo : Z) (i : Tick) (s : St) :
  paced lo s -> lo <= t1 i -> t1 i <= t2 i ->
  paced (t2 i) (exec (loop cfg i) s).
Proof.
  intros Hp Hlo H12. rewrite loop_exec. cbv zeta.
  set (s2 := exec (deliver cfg (inbox i)) (exec (doLoop i) s)).
  assert (H2 : paced lo s2).
  { apply paced_frame with (s := s); [ | exact Hp ].
    eapply conn_frame_trans;
      [ apply doLoop_conn_frame | apply deliver_conn_frame ]. }
  pose proof (reconnect_paced lo i s2 H2 Hlo) as H3.
  set (s3 := exec (reconnectStep cfg i) s2) in *.
  apply paced_weaken with (lo := t1 i); [ exact H12 | ].
  apply paced_frame with (s := s3); [ | exact H3 ].
  destruct (needReset s3).
  - apply reboot_conn_frame.
  - eapply conn_frame_trans;
      [ apply button_conn_frame | apply action_conn_frame ].
Qed.

Lemma run_paced (ticks : list Tick) (lo : Z) (s : St) :
  paced lo s -> chronological lo ticks ->
  exists lo', paced lo' (run cfg ticks s).
Proof.
  revert lo s. induction ticks as [ | i rest IH ]; intros lo s Hp Hc; simpl.
  - exists lo. exact Hp.
  - destruct (restarted s); [ exists lo; exact Hp | ].
    destruct Hc as (Hlo & H12 & Hrest).
    apply (IH (t2 i)); [ | exact Hrest ].
    apply loop_paced with (lo := lo); assumption.
Qed.

End Pace.

(** C8: in a boot session whose clock never goes back, any two consecutive
    connection attempts, accepted or refused, are at least
    [MQTT_CONNECT_FREQ_LIMIT] (2000 ms) apart, whatever the network and the
    broker do; every call of [mqttClient.connect] is one of these attempts. *)
Theorem connect_attempts_are_spaced :
  forall (cfg : Config) (ticks : list Tick),
    chronological 0 ticks ->
    let tr := trace (run cfg ticks boot) in
    spaced MQTT_CONNECT_FREQ_LIMIT (attempts tr)
    /\ List.length (connects tr) = List.length (attempts tr).
Proof.
  intros cfg ticks Hc tr.
  destruct (run_paced cfg ticks 0 boot paced_boot Hc)
    as (lo & Hs & _ & _ & _ & Hlen).
  split; [ exact Hs | exact Hlen ].
Qed.

Lemma connect_attempts_witness :
  attempts (trace (run esp01 unreliable_broker boot)) = [2100; 4200; 6300]
  /\ spaced MQTT_CONNECT_FREQ_LIMIT
            (attempts (trace (run esp01 unreliable_broker boot))).
Proof.
  split; [ reflexivity | ].
  apply (connect_attempts_are_spaced esp01 unreliable_broker).
  vm_compute. intuition discriminate.
Defined.

(** C10: [lastMqttConnectionAttempt] starts at 0, so no connection is tried
    before the clock has passed [MQTT_CONNECT_FREQ_LIMIT] (2000 ms): every
    attempt of a boot session is later than that, and a pass through the
    connection manager at or before 2000 ms does nothing, although the
    request flag is set and whatever the tick says about the network. *)
Theorem no_connect_attempt_right_after_boot :
  forall (cfg : Config) (ticks : list Tick) (i : Tick),
    chronological 0 ticks ->
    0 <= t1 i <= MQTT_CONNECT_FREQ_LIMIT ->
    Forall (fun t => MQTT_CONNECT_FREQ_LIMIT < t)
           (attempts (trace (run cfg ticks boot)))
    /\ exec (reconnectStep cfg i) (exec wifiConnected boot)
       = exec wifiConnected boot.
Proof.
  intros cfg ticks i Hc Hi.
  destruct (run_paced cfg ticks 0 boot paced_boot Hc) as (lo & _ & Hf & _).
  split; [ exact Hf | ].
  apply reconnectStep_too_early. fields.
  rewrite usub_zero_r by apply millis_range.
  pose proof (millis_le (t1 i)). lia.
Qed.

Lemma no_connect_attempt_witness :
  Forall (fun t => MQTT_CONNECT_FREQ_LIMIT < t)
         (attempts (trace (run esp01 unreliable_broker boot)))
  /\ exec (reconnectStep esp01 (offline 2000 true)) (exec wifiConnected boot)
     = exec wifiConnected boot.
Proof.
  apply (no_connect_attempt_right_after_boot esp01 unreliable_broker
           (offline 2000 true)).
  - vm_compute. intuition discriminate.
  - vm_compute. intuition discriminate.
Defined.

(** * Further properties of the sketch *)

(** ** The message handler, continued *)

Section Handler.

Variable cfg : Config.

(** Apart from [REPORT], a message changes the slot at most. *)
Lemma message_writes_slot_only (topic payload : string) (s : St) :
  payload <> "REPORT" ->
  exists v, exec (mqttMessageReceived cfg topic payload) s
            = exec (set_needAction v) s.
Proof.
  intros Hp.
  assert (Hsettle : forall v, exists w,
             settle (exec (set_needAction v) s) = exec (set_needAction w) s).
  { intros v. rewrite settle_exec. fields.
    destruct (v =? state s); eexists; reflexivity. }
  destruct (endsWith topic "action") eqn:Ht.
  2:{ exists (needAction s). rewrite message_other_topic by exact Ht.
      destruct s; reflexivity. }
  destruct (String.eqb_spec payload "ON") as [-> | Hon].
  { rewrite message_on by exact Ht. apply Hsettle. }
  destruct (String.eqb_spec payload "OFF") as [-> | Hoff].
  { rewrite message_off by exact Ht. apply Hsettle. }
  destruct (String.eqb_spec payload "TOGGLE") as [-> | Htog].
  { rewrite message_toggle by exact Ht. apply Hsettle. }
  destruct (String.eqb_spec payload "FLASH") as [-> | Hfl].
  { rewrite message_flash by exact Ht. apply Hsettle. }
  rewrite message_unrecognized; [ | exact Ht | unfold recognized; tauto ].
  destruct (Hsettle (needAction s)) as (w & Hw). exists w. rewrite <- Hw.
  f_equal. destruct s; reflexivity.
Qed.

(** What one message adds to the trace and what it leaves alone. *)
Lemma message_effect (topic payload : string) (s : St) :
  let s' := exec (mqttMessageReceived cfg topic payload) s in
  trace s' = trace s
             ++ (if isReportRequest (topic, payload)
                 then [statusReport cfg (state s)] else [])
  /\ state s' = state s
  /\ lastAction s' = lastAction s
  /\ needMqttConnect s' = needMqttConnect s
  /\ needReset s' = needReset s
  /\ lastMqttConnectionAttempt s' = lastMqttConnectionAttempt s
  /\ restarted s' = restarted s.
Proof.
  unfold isReportRequest, equals. cbn [fst snd].
  destruct (String.eqb_spec payload "REPORT") as [-> | Hp].
  - destruct (endsWith topic "action") eqn:Ht; cbn [andb].
    + rewrite message_report by exact Ht. rewrite settle_exec, report_exec.
      fields. tauto.
    + rewrite message_other_topic by exact Ht. rewrite app_nil_r. tauto.
  - destruct (message_writes_slot_only topic payload s Hp) as (v & ->).
    rewrite andb_false_r, app_nil_r. fields. tauto.
Qed.

End Handler.

(** X1: a [TOGGLE] on the action topic stores the inverse of the relay
    state, whatever was pending; once the debounce test lets it through, the
    relay takes that inverse and it is written to the pin and reported. *)
Theorem toggle_inverts_relay :
  forall (cfg : Config) (s : St) (topic : string) (now : Z),
    reachable cfg s ->
    endsWith topic "action" = true ->
    ACTION_FREQ_LIMIT < usub now (lastAction s) ->
    let s1 := exec (mqttMessageReceived cfg topic "TOGGLE") s in
    let s2 := exec (actionStep cfg now) s1 in
    needAction s1 = 1 - state s
    /\ state s1 = state s
    /\ trace s1 = trace s
    /\ state s2 = 1 - state s
    /\ needAction s2 = NO_ACTION
    /\ lastAction s2 = now
    /\ trace s2 =
         trace s ++
         [DigitalWrite (RELAY_PIN cfg) (1 - state s);
          (if state s =? HIGH then StopCustomBlink else Blink 5000 95);
          Publish (mqttStatusTopic cfg)
                  (if state s =? HIGH then "OFF" else "ON")
                  (mqttRetain cfg) (mqttQoS cfg)].
Proof.
  intros cfg s topic now Hr Ht Hlt s1 s2.
  destruct (reachable_well_formed cfg s Hr) as (Hs & _ & _).
  assert (E1 : s1 = exec (set_needAction (1 - state s)) s).
  { unfold s1. rewrite message_toggle by exact Ht.
    rewrite wrap_int_small by (destruct Hs as [-> | ->]; constants; lia).
    apply settle_fixed. fields. lia. }
  assert (Hdue : commitDue now s1 = true).
  { rewrite E1. apply commitDue_true; fields;
      [ destruct Hs as [-> | ->]; constants; lia | exact Hlt ]. }
  assert (Hpos : 0 <= needAction s1).
  { rewrite E1. fields. destruct Hs as [-> | ->]; constants; lia. }
  unfold s2. rewrite (actionStep_target cfg now s1 Hdue Hpos).
  rewrite E1. fields. unfold switchEvents, statusReport, statusText.
  destruct Hs as [-> | ->]; repeat split.
Qed.

Lemma toggle_inverts_relay_witness :
  let s1 := exec (mqttMessageReceived esp01 "devices/testThing/action"
                    "TOGGLE") boot in
  let s2 := exec (actionStep esp01 7001) s1 in
  needAction s1 = HIGH /\ state s2 = HIGH
  /\ trace s2 = [DigitalWrite 0 1; Blink 5000 95;
                 Publish "devices/testThing/status" "ON" true 1].
Proof.
  destruct (toggle_inverts_relay esp01 boot "devices/testThing/action" 7001)
    as (Hn & _ & _ & Hs & _ & _ & Htr).
  - apply reach_refl.
  - reflexivity.
  - vm_compute. reflexivity.
  - cbv zeta. rewrite Hn, Hs, Htr. vm_compute. tauto.
Defined.

(** X2: the slot keeps the latest command only.  Whatever message came
    first (other than a [REPORT], which also publishes), a following [ON],
    [OFF], [TOGGLE] or [FLASH] leaves the sketch exactly where it would have
    been without the first. *)
Theorem later_command_replaces_earlier :
  forall (cfg : Config) (s : St) (topic1 topic2 payload1 payload2 : string),
    payload1 <> "REPORT" ->
    endsWith topic2 "action" = true ->
    slot_command payload2 ->
    exec (mqttMessageReceived cfg topic2 payload2)
         (exec (mqttMessageReceived cfg topic1 payload1) s)
    = exec (mqttMessageReceived cfg topic2 payload2) s.
Proof.
  intros cfg s topic1 topic2 payload1 payload2 Hp1 Ht Hp2.
  destruct (message_writes_slot_only cfg topic1 payload1 s Hp1) as (v & ->).
  destruct Hp2 as [-> | [-> | [-> | ->]]].
  - rewrite !message_on by exact Ht. reflexivity.
  - rewrite !message_off by exact Ht. reflexivity.
  - rewrite !message_toggle by exact Ht. reflexivity.
  - rewrite !message_flash by exact Ht. reflexivity.
Qed.

Lemma later_command_witness :
  exec (mqttMessageReceived esp01 "devices/testThing/action" "OFF")
       (exec (mqttMessageReceived esp01 "devices/testThing/action" "FLASH")
             boot)
  = exec (mqttMessageReceived esp01 "devices/testThing/action" "OFF") boot.
Proof.
  apply (later_command_replaces_earlier esp01 boot).
  - discriminate.
  - reflexivity.
  - right; left; reflexivity.
Defined.

(** What a batch of messages adds to the trace and what it leaves alone. *)
Lemma deliver_effect (cfg : Config) (msgs : list (string * string)) (s : St) :
  let s' := exec (deliver cfg msgs) s in
  trace s' = trace s
             ++ repeat (statusReport cfg (state s)) (reportRequests msgs)
  /\ state s' = state s
  /\ lastAction s' = lastAction s
  /\ needMqttConnect s' = needMqttConnect s
  /\ needReset s' = needReset s
  /\ lastMqttConnectionAttempt s' = lastMqttConnectionAttempt s
  /\ restarted s' = restarted s.
Proof.
  revert s. induction msgs as [ | [topic payload] rest IH ]; intros s.
  - cbv zeta. unfold reportRequests. simpl. rewrite app_nil_r.
    repeat split.
  - cbv zeta. rewrite deliver_cons.
    destruct (message_effect cfg topic payload s)
      as (Ht & Hs & Hl & Hc & Hr & Hm & Hx).
    destruct (IH (exec (mqttMessageReceived cfg topic payload) s))
      as (Ht' & Hs' & Hl' & Hc' & Hr' & Hm' & Hx').
    rewrite Ht', Hs', Hl', Hc', Hr', Hm', Hx', Ht, Hs, Hl, Hc, Hr, Hm, Hx.
    split; [ | tauto ].
    unfold reportRequests. cbn [filter].
    destruct (isReportRequest (topic, payload)).
    + rewrite <- app_assoc. reflexivity.
    + rewrite app_nil_r. reflexivity.
Qed.

(** X3: delivering messages never switches the relay.  Whatever arrives,
    the relay state, the time of the last commit and the connection flags
    stay as they were, and the trace grows by one status report of the
    current state per [REPORT] received on the action topic and by nothing
    else. *)
Theorem delivery_only_writes_slot_and_reports :
  forall (cfg : Config) (msgs : list (string * string)) (s : St),
    let s' := exec (deliver cfg msgs) s in
    trace s' = trace s
               ++ repeat (statusReport cfg (state s)) (reportRequests msgs)
    /\ state s' = state s
    /\ lastAction s' = lastAction s
    /\ needMqttConnect s' = needMqttConnect s
    /\ needReset s' = needReset s
    /\ lastMqttConnectionAttempt s' = lastMqttConnectionAttempt s
    /\ restarted s' = restarted s.
Proof. intros cfg msgs s. apply deliver_effect. Qed.

(** ** The relay side of [loop] *)

Lemma relayView_eq (s s' : St) :
  relayView s = relayView s' <->
  state s = state s' /\ needAction s = needAction s'
  /\ lastAction s = lastAction s' /\ needReset s = needReset s'
  /\ restarted s = restarted s'.
Proof.
  unfold relayView. split.
  - intros H. inversion H. tauto.
  - intros (H1 & H2 & H3 & H4 & H5). rewrite H1, H2, H3, H4, H5. reflexivity.
Qed.

Section RelaySide.

Variable cfg : Config.

(** The connection manager leaves the relay side alone. *)
Lemma reconnect_relayView (i : Tick) (s : St) :
  relayView (exec (reconnectStep cfg i) s) = relayView s.
Proof.
  destruct (reconnectDue i s) eqn:Hdue.
  - destruct (connectOk i) eqn:Hok.
    + rewrite (reconnectStep_succeeded cfg i s Hdue Hok). reflexivity.
    + rewrite (reconnectStep_failed cfg i s Hdue Hok). reflexivity.
  - rewrite (reconnectStep_idle cfg i s Hdue). reflexivity.
Qed.


Lemma message_relayView (topic payload : string) (s s' : St) :
  relayView s = relayView s' ->
  relayView (exec (mqttMessageReceived cfg topic payload) s)
  = relayView (exec (mqttMessageReceived cfg topic payload) s').
Proof.
  intros H. apply relayView_eq in H.
  destruct H as (Hst & Hna & Hla & Hnr & Hrs).
  destruct (endsWith topic "action") eqn:Ht.
  2:{ rewrite !message_other_topic by exact Ht. apply relayView_eq. tauto. }
  rewrite !message_action_topic by exact Ht. rewrite !settle_exec.
  unfold relayView.
  destruct (equals payload "ON"); [ fields; rewrite Hst, Hla, Hnr, Hrs;
                                    reflexivity | ].
  destruct (equals payload "OFF"); [ fields; rewrite Hst, Hla, Hnr, Hrs;
                                     reflexivity | ].
  destruct (equals payload "TOGGLE").
  { rewrite !exec_bind. cbn [get fst snd]. fields.
    rewrite Hst, Hla, Hnr, Hrs. reflexivity. }
  destruct (equals payload "FLASH"); [ fields; rewrite Hst, Hla, Hnr, Hrs;
                                       reflexivity | ].
  destruct (equals payload "REPORT").
  - rewrite !report_exec. fields. rewrite Hst, Hna, Hla, Hnr, Hrs.
    reflexivity.
  - rewrite !exec_ret. rewrite Hst, Hna, Hla, Hnr, Hrs. reflexivity.
Qed.

Lemma deliver_relayView (msgs : list (string * string)) (s s' : St) :
  relayView s = relayView s' ->
  relayView (exec (deliver cfg msgs) s)
  = relayView (exec (deliver cfg msgs) s').
Proof.
  revert s s'. induction msgs as [ | [topic payload] rest IH ]; intros s s' H.
  - exact H.
  - rewrite !deliver_cons. apply IH, message_relayView, H.
Qed.

Lemma doLoop_relayView (i j : Tick) (s s' : St) :
  configJustSaved i = configJustSaved j ->
  relayView s = relayView s' ->
  relayView (exec (doLoop i) s) = relayView (exec (doLoop j) s').
Proof.
  intros Hc H. apply relayView_eq in H.
  destruct H as (Hst & Hna & Hla & Hnr & Hrs).
  rewrite !doLoop_exec. cbv zeta. rewrite <- Hc. apply relayView_eq.
  destruct (wifiJustConnected i), (wifiJustConnected j), (configJustSaved i);
    fields; tauto.
Qed.

Lemma button_relayView (b : bool) (now : Z) (s s' : St) :
  relayView s = relayView s' ->
  relayView (exec (buttonStep cfg b now) s)
  = relayView (exec (buttonStep cfg b now) s').
Proof.
  intros H. apply relayView_eq in H.
  destruct H as (Hst & Hna & Hla & Hnr & Hrs).
  rewrite !buttonStep_exec. apply relayView_eq.
  destruct (BUTTON_PIN cfg); [ | tauto ].
  rewrite <- Hla, <- Hst.
  destruct (b && (ACTION_FREQ_LIMIT <? usub now (lastAction s)));
    fields; tauto.
Qed.

Lemma action_relayView (now : Z) (s s' : St) :
  relayView s = relayView s' ->
  relayView (exec (actionStep cfg now) s)
  = relayView (exec (actionStep cfg now) s').
Proof.
  intros H. apply relayView_eq in H.
  destruct H as (Hst & Hna & Hla & Hnr & Hrs).
  assert (Hd : commitDue now s' = commitDue now s).
  { unfold commitDue. rewrite Hna, Hla. reflexivity. }
  apply relayView_eq.
  destruct (commitDue now s) eqn:Hdue.
  2:{ rewrite (actionStep_held cfg now s Hdue), (actionStep_held cfg now s' Hd).
      tauto. }
  destruct (Z.eq_dec (needAction s) FLASH_ACTION) as [Hflash | Hnf].
  { rewrite (actionStep_flash cfg now s Hdue Hflash).
    rewrite (actionStep_flash cfg now s' Hd) by congruence.
    fields. tauto. }
  destruct (Z_lt_le_dec (needAction s) 0) as [Hneg | Hpos].
  - rewrite (actionStep_other cfg now s Hdue Hneg Hnf).
    rewrite (actionStep_other cfg now s' Hd) by congruence.
    fields. tauto.
  - rewrite (actionStep_target cfg now s Hdue Hpos).
    rewrite (actionStep_target cfg now s' Hd) by congruence.
    fields. tauto.
Qed.

Lemma loop_relayView (i j : Tick) (s s' : St) :
  sameLocalInputs i j ->
  relayView s = relayView s' ->
  relayView (exec (loop cfg i) s) = relayView (exec (loop cfg j) s').
Proof.
  intros (Hc & Hin & H2 & Hb) H. rewrite !loop_exec. cbv zeta.
  rewrite <- Hin, <- H2, <- Hb.
  set (a := exec (reconnectStep cfg i)
              (exec (deliver cfg (inbox i)) (exec (doLoop i) s))).
  set (b := exec (reconnectStep cfg j)
              (exec (deliver cfg (inbox i)) (exec (doLoop j) s'))).
  assert (Hab : relayView a = relayView b).
  { unfold a, b. rewrite !reconnect_relayView.
    apply deliver_relayView, doLoop_relayView; assumption. }
  pose proof Hab as Hab'. apply relayView_eq in Hab'.
  destruct Hab' as (_ & _ & _ & Hnr & _). rewrite <- Hnr.
  destruct (needReset a).
  - rewrite !rebootStep_exec. apply relayView_eq in Hab. apply relayView_eq.
    fields. tauto.
  - apply action_relayView, button_relayView, Hab.
Qed.

End RelaySide.

(** X4: what the relay does is independent of the broker.  Two passes
    through [loop] that get the same messages, the same button level, the
    same configuration event and the same clock reading for the relay end in
    the same relay state, pending action, commit time and reboot flags,
    whatever the network state, the answer of the broker, the connection
    request flag and the time of the last attempt are on either side. *)
Theorem relay_side_ignores_connection :
  forall (cfg : Config) (i j : Tick) (s s' : St),
    sameLocalInputs i j ->
    relayView s = relayView s' ->
    relayView (exec (loop cfg i) s) = relayView (exec (loop cfg j) s').
Proof. intros cfg i j s s'. apply loop_relayView. Qed.

Lemma relay_side_witness :
  relayView (exec (loop esp01 (offline 7500 false))
                  (exec (mqttMessageReceived esp01 "devices/testThing/action"
                           "ON") boot))
  = relayView (exec (loop esp01 (listening 7500 []))
                    (exec (mqttMessageReceived esp01
                             "devices/testThing/action" "ON")
                          (exec wifiConnected boot))).
Proof.
  apply (relay_side_ignores_connection esp01).
  - repeat split.
  - reflexivity.
Defined.

(** X5: a pending reboot takes the place of the relay work.  When the
    configuration was saved, in this pass or before, [loop] waits a second
    and restarts: the relay state and the time of the last commit are those
    from before the pass even if a commit was due, the trace ends with the
    wait and the restart, and the boot session is over. *)
Theorem pending_reboot_preempts_commit :
  forall (cfg : Config) (i : Tick) (s : St),
    needReset s = true \/ configJustSaved i = true ->
    let s' := exec (loop cfg i) s in
    restarted s' = true
    /\ state s' = state s
    /\ lastAction s' = lastAction s
    /\ (exists before, trace s' = before ++ [Delay 1000; Restart])
    /\ (forall ticks, run cfg ticks s' = s').
Proof.
  intros cfg i s Hreset s'.
  set (s1 := exec (doLoop i) s).
  set (s2 := exec (deliver cfg (inbox i)) s1).
  set (s3 := exec (reconnectStep cfg i) s2).
  assert (H1 : needReset s1 = true /\ state s1 = state s
               /\ lastAction s1 = lastAction s).
  { unfold s1. rewrite doLoop_exec. cbv zeta.
    destruct (wifiJustConnected i), (configJustSaved i), Hreset as [H | H];
      fields; repeat split; trivial; discriminate H. }
  destruct (deliver_effect cfg (inbox i) s1)
    as (_ & Hst2 & Hla2 & _ & Hnr2 & _).
  fold s2 in Hst2, Hla2, Hnr2.
  pose proof (reconnect_relayView cfg i s2) as H3. fold s3 in H3.
  apply relayView_eq in H3. destruct H3 as (Hst3 & _ & Hla3 & Hnr3 & _).
  assert (E : s' = exec rebootStep s3).
  { unfold s'. rewrite loop_exec. cbv zeta. fold s1 s2 s3.
    rewrite Hnr3, Hnr2. destruct H1 as (-> & _). reflexivity. }
  rewrite E, rebootStep_exec. fields.
  split; [ reflexivity | ].
  split; [ rewrite Hst3, Hst2; tauto | ].
  split; [ rewrite Hla3, Hla2; tauto | ].
  split; [ exists (trace s3); reflexivity | ].
  intros ticks. destruct ticks; reflexivity.
Qed.

Lemma pending_reboot_witness :
  let s := exec (mqttMessageReceived esp01 "devices/testThing/action" "ON")
             boot in
  let s' := exec (loop esp01
                    (mkTick false true [] 9000 true true true
                            "192.168.4.2" 9000 false)) s in
  commitDue (millis 9000) s = true
  /\ restarted s' = true /\ state s' = LOW /\ lastAction s' = 0.
Proof.
  intros s s'. split; [ reflexivity | ].
  destruct (pending_reboot_preempts_commit esp01
              (mkTick false true [] 9000 true true true
                      "192.168.4.2" 9000 false) s)
    as (Hr & Hst & Hla & _).
  - right. reflexivity.
  - fold s' in Hr, Hst, Hla. rewrite Hr, Hst, Hla. vm_compute. tauto.
Defined.

(** X6: on a build with a button, a pass that finds the button down after
    the debounce interval inverts the relay at once, in the place of whatever
    command was pending: the inverse of the state is written to the pin and
    reported, and the time of the last commit becomes [now].  A press seen
    while the interval has not passed leaves no mark at all. *)
Theorem held_button_toggles_relay :
  forall (cfg : Config) (pin : Z) (s : St) (now : Z),
    BUTTON_PIN cfg = Some pin ->
    reachable cfg s ->
    let s' := exec (actionStep cfg now) (exec (buttonStep cfg true now) s) in
    (ACTION_FREQ_LIMIT < usub now (lastAction s) ->
       state s' = 1 - state s
       /\ needAction s' = NO_ACTION
       /\ lastAction s' = now
       /\ trace s' = trace s ++ switchEvents cfg (1 - state s))
    /\ (usub now (lastAction s) <= ACTION_FREQ_LIMIT -> s' = s).
Proof.
  intros cfg pin s now Hpin Hr s'.
  destruct (reachable_well_formed cfg s Hr) as (Hs & _ & _).
  unfold s'. rewrite buttonStep_exec, Hpin. cbn [andb]. split.
  - intros Hlt. pose proof Hlt as Hb. apply Z.ltb_lt in Hb. rewrite Hb.
    rewrite wrap_int_small by (destruct Hs as [-> | ->]; constants; lia).
    set (s1 := exec (set_needAction (1 - state s)) s).
    assert (Hdue : commitDue now s1 = true).
    { apply commitDue_true; unfold s1; fields;
        [ destruct Hs as [-> | ->]; constants; lia | exact Hlt ]. }
    rewrite (actionStep_target cfg now s1 Hdue)
      by (unfold s1; fields; destruct Hs as [-> | ->]; constants; lia).
    unfold s1. fields. repeat split.
  - intros Hle. pose proof Hle as Hb. apply Z.ltb_ge in Hb. rewrite Hb.
    apply actionStep_held, commitDue_false, Hle.
Qed.

Lemma held_button_witness :
  let s := exec (mqttMessageReceived d1_mini "devices/testThing/action"
                   "FLASH") boot in
  let s' := exec (actionStep d1_mini 7001)
                 (exec (buttonStep d1_mini true 7001) s) in
  needAction s = FLASH_ACTION
  /\ state s' = HIGH /\ needAction s' = NO_ACTION
  /\ trace s' = [DigitalWrite 14 1; Blink 5000 95;
                 Publish "devices/testThing/status" "ON" true 1].
Proof.
  intros s s'. split; [ reflexivity | ].
  destruct (held_button_toggles_relay d1_mini 4 s 7001 eq_refl)
    as (Hfire & _).
  - apply reachable_from_one, step_message.
  - fold s' in Hfire. destruct Hfire as (Hst & Hna & _ & Htr).
    + vm_compute. reflexivity.
    + rewrite Hst, Hna, Htr. vm_compute. tauto.
Defined.

(** ** The pace of commits *)



Section Debounce.

Variable cfg : Config.






End Debounce.



(** ** How many connection attempts *)

Lemma spaced_span (gap : Z) (l : list Z) (a : Z) :
  spaced gap (a :: l) ->
  a + gap * Z.of_nat (List.length l) <= last (a :: l) 0.
Proof.
  revert a. induction l as [ | b l IH ]; intros a Hs.
  - simpl. lia.
  - destruct Hs as (Hab & Hs). specialize (IH b Hs).
    change (last (a :: b :: l) 0) with (last (b :: l) 0).
    change (List.length (b :: l)) with (S (List.length l)).
    rewrite Nat2Z.inj_succ. lia.
Qed.

Lemma run_paced_until (cfg : Config) (ticks : list Tick) (lo T : Z) (s : St) :
  paced lo s -> chronological lo ticks ->
  Forall (fun i => t2 i <= T) ticks -> lo <= T ->
  paced T (run cfg ticks s).
Proof.
  revert lo s. induction ticks as [ | i rest IH ]; intros lo s Hp Hc HT Hlo.
  - simpl. exact (paced_weaken lo T s Hlo Hp).
  - simpl. destruct (restarted s); [ exact (paced_weaken lo T s Hlo Hp) | ].
    destruct Hc as (H1 & H12 & Hrest). inversion HT as [ | ? ? Hi HT' ]; subst.
    apply (IH (t2 i)); try assumption.
    apply loop_paced with (lo := lo); assumption.
Qed.

(** X8: the reconnect storm is bounded.  In a boot session observed up to
    time [T] (milliseconds since boot, clock never going back), [n]
    connection attempts need more than [n] times [MQTT_CONNECT_FREQ_LIMIT]:
    a broker that stays away for 30 s is tried at most 14 times. *)
Theorem connect_attempts_are_bounded :
  forall (cfg : Config) (ticks : list Tick) (T : Z),
    chronological 0 ticks ->
    Forall (fun i => t2 i <= T) ticks ->
    0 <= T ->
    let n := Z.of_nat (List.length (attempts (trace (run cfg ticks boot)))) in
    n = 0 \/ MQTT_CONNECT_FREQ_LIMIT * n < T.
Proof.
  intros cfg ticks T Hc HT H0 n.
  destruct (run_paced_until cfg ticks 0 T boot paced_boot Hc HT H0)
    as (Hs & Hf & Hl & _).
  unfold n. clear n.
  destruct (attempts (trace (run cfg ticks boot))) as [ | a l ] eqn:E.
  - left. reflexivity.
  - right. pose proof (spaced_span _ l a Hs) as Hspan.
    inversion Hf as [ | ? ? Ha _ ]; subst.
    change (List.length (a :: l)) with (S (List.length l)).
    rewrite Nat2Z.inj_succ. unfold MQTT_CONNECT_FREQ_LIMIT in *. lia.
Qed.

Lemma connect_attempts_bounded_witness :
  List.length (attempts (trace (run esp01 unreliable_broker boot))) = 3%nat
  /\ MQTT_CONNECT_FREQ_LIMIT * 3 < 6300.
Proof.
  assert (E : List.length (attempts (trace (run esp01 unreliable_broker boot)))
              = 3%nat) by reflexivity.
  split; [ exact E | ].
  assert (H : Z.of_nat 3 = 0 \/ MQTT_CONNECT_FREQ_LIMIT * Z.of_nat 3 < 6300).
  { rewrite <- E.
    apply (connect_attempts_are_bounded esp01 unreliable_broker 6300).
    - vm_compute. intuition discriminate.
    - unfold unreliable_broker, offline. repeat constructor; simpl; lia.
    - lia. }
  destruct H as [H | H]; [ discriminate H | exact H ].
Defined.

(** ** Every switch is reported *)

Section Switches.

Variable cfg : Config.

Lemma switchesReported_app (a b : list Event) :
  switchesReported cfg a -> switchesReported cfg b ->
  switchesReported cfg (a ++ b).
Proof.
  intros Ha Hb. induction a as [ | e a IH ]; [ exact Hb | ].
  destruct e; simpl in *; try (apply IH; exact Ha).
  destruct Ha as (Hpin & (rest' & Hrest) & Ha).
  split; [ exact Hpin | ]. split; [ | apply IH; exact Ha ].
  exists (rest' ++ b). rewrite Hrest. reflexivity.
Qed.

Lemma switchEvents_reported (v : Z) : switchesReported cfg (switchEvents cfg v).
Proof.
  unfold switchEvents. simpl. split; [ reflexivity | ].
  split; [ eexists; reflexivity | ].
  destruct (v =? HIGH); simpl; tauto.
Qed.

Lemma step_switchesReported (s s' : St) :
  step cfg s s' -> switchesReported cfg (trace s) ->
  switchesReported cfg (trace s').
Proof.
  intros Hstep Hs. destruct Hstep.
  - exact Hs.
  - exact Hs.
  - destruct (message_effect cfg topic payload s) as (-> & _).
    apply switchesReported_app; [ exact Hs | ].
    destruct (isReportRequest (topic, payload)); simpl; tauto.
  - destruct (reconnectDue i s) eqn:Hdue.
    + destruct (connectOk i) eqn:Hok.
      * rewrite (reconnectStep_succeeded cfg i s Hdue Hok). fields.
        apply switchesReported_app; [ exact Hs | simpl; tauto ].
      * rewrite (reconnectStep_failed cfg i s Hdue Hok). fields.
        apply switchesReported_app; [ exact Hs | simpl; tauto ].
    + rewrite (reconnectStep_idle cfg i s Hdue). exact Hs.
  - rewrite rebootStep_exec. fields.
    apply switchesReported_app; [ exact Hs | simpl; tauto ].
  - rewrite buttonStep_exec. destruct (BUTTON_PIN cfg); [ | exact Hs ].
    destruct (b && _); exact Hs.
  - destruct (commitDue now s) eqn:Hdue.
    2:{ rewrite (actionStep_held cfg now s Hdue). exact Hs. }
    destruct (Z.eq_dec (needAction s) FLASH_ACTION) as [Hflash | Hnf].
    { rewrite (actionStep_flash cfg now s Hdue Hflash). fields.
      apply switchesReported_app; [ exact Hs | ].
      apply switchesReported_app; [ apply switchEvents_reported | ].
      apply (switchesReported_app [Delay (flashDuration cfg)]);
        [ simpl; tauto | apply switchEvents_reported ]. }
    destruct (Z_lt_le_dec (needAction s) 0) as [Hneg | Hpos].
    + rewrite (actionStep_other cfg now s Hdue Hneg Hnf). exact Hs.
    + rewrite (actionStep_target cfg now s Hdue Hpos). fields.
      apply switchesReported_app;
        [ exact Hs | apply switchEvents_reported ].
Qed.

End Switches.

(** X9: no silent switch.  In every trace the program produces, each write
    to a pin goes to the relay pin and is followed at once by the indicator
    call for the level written ([blink] for high, [stopCustomBlink] for low)
    and by the publish of that level on the status topic with the configured
    retain flag and QoS. *)
Theorem every_switch_is_reported :
  forall (cfg : Config) (s : St),
    reachable cfg s -> switchesReported cfg (trace s).
Proof.
  intros cfg s Hr. induction Hr as [ | s1 s2 _ IH Hstep ].
  - exact I.
  - exact (step_switchesReported cfg s1 s2 Hstep IH).
Qed.

Lemma every_switch_witness :
  switchesReported esp01 (trace on_with_flash_pending).
Proof.
  apply (every_switch_is_reported esp01). apply run_reachable.
Defined.

(** ** The configuration form *)

Lemma clamp_range (z : Z) : LONG_MIN <= clamp z <= LONG_MAX.
Proof. unfold clamp, LONG_MIN, LONG_MAX. lia. Qed.

Lemma clamp_small (z : Z) : LONG_MIN <= z <= LONG_MAX -> clamp z = z.
Proof. unfold clamp, LONG_MIN, LONG_MAX. lia. Qed.

Lemma strtol_range (s : string) : LONG_MIN <= strtol s <= LONG_MAX.
Proof.
  unfold strtol. destruct (skipSpace s) as [ | c rest ];
    [ apply clamp_range | ].
  destruct c as [[] [] [] [] [] [] [] []]; apply clamp_range.
Qed.

Lemma digit_range (c : ascii) (d : Z) : digit c = Some d -> 0 <= d <= 9.
Proof.
  unfold digit. destruct (_ && _) eqn:E; [ | discriminate ].
  intros H. injection H as <-. apply andb_prop in E. destruct E as (E1 & E2).
  apply Nat.leb_le in E1, E2. lia.
Qed.

Lemma digit_not_space (c : ascii) (d : Z) :
  digit c = Some d ->
  isspace c = false /\ c <> "-"%char /\ c <> "+"%char.
Proof.
  intros Hd.
  split; [ | split; intros ->; vm_compute in Hd; discriminate Hd ].
  unfold digit in Hd. unfold isspace. cbv zeta in *.
  destruct (_ && _) eqn:E in Hd; [ | discriminate Hd ].
  apply andb_prop in E. destruct E as (E1 & E2).
  apply Nat.leb_le in E1, E2.
  apply orb_false_intro.
  - apply Nat.eqb_neq. lia.
  - apply andb_false_intro2. apply Nat.leb_gt. lia.
Qed.

Lemma digitsValue_stop (acc : Z) (s : string) :
  stopsNumber s -> digitsValue acc s = acc.
Proof. destruct s as [ | c rest ]; simpl; [ | intros -> ]; reflexivity. Qed.

Lemma digitsValue_app (acc : Z) (a b : string) :
  allDigits a = true ->
  digitsValue acc (a ++ b)%string = digitsValue (digitsValue acc a) b.
Proof.
  revert acc. induction a as [ | c a IH ]; intros acc Ha; [ reflexivity | ].
  simpl in *. destruct (digit c); [ apply IH, Ha | discriminate Ha ].
Qed.

Lemma digitsValue_lower (acc : Z) (s : string) :
  0 <= acc -> acc <= digitsValue acc s.
Proof.
  revert acc. induction s as [ | c s IH ]; intros acc Hacc;
    cbn [digitsValue]; [ lia | ].
  destruct (digit c) as [ d | ] eqn:E; [ | lia ].
  pose proof (digit_range c d E). specialize (IH (10 * acc + d)). lia.
Qed.

(** A text that starts with a digit is read from its first character. *)
Lemma strtol_digits (c : ascii) (rest : string) (d : Z) :
  digit c = Some d ->
  strtol (String c rest) = clamp (digitsValue 0 (String c rest)).
Proof.
  intros Hd. destruct (digit_not_space c d Hd) as (Hsp & Hm & Hp).
  unfold strtol. cbn [skipSpace]. rewrite Hsp.
  destruct c as [[] [] [] [] [] [] [] []]; try reflexivity;
    [ elim Hp | elim Hm ]; reflexivity.
Qed.

Lemma strtol_noNumber (s : string) : noNumber s -> strtol s = 0.
Proof.
  destruct s as [ | c rest ]; [ reflexivity | ].
  intros (Hsp & Hd & Hm & Hp). unfold strtol. cbn [skipSpace]. rewrite Hsp.
  assert (E : digitsValue 0 (String c rest) = 0)
    by (simpl; rewrite Hd; reflexivity).
  destruct c as [[] [] [] [] [] [] [] []]; try (rewrite E; reflexivity);
    [ elim Hp | elim Hm ]; reflexivity.
Qed.

Lemma validate_int_range_spec (arg : string) (min max : Z) :
  validate_int_range arg min max = true <-> min <= strtol arg <= max.
Proof.
  unfold validate_int_range. cbv zeta.
  rewrite andb_true_iff, !Z.leb_le. tauto.
Qed.

(** What an accepting validator has checked. *)
Lemma form_validator_spec_aux (server qos flash : string) :
  fst (formValidator server qos flash) = true ->
  (3 <= String.length server)%nat
  /\ 0 <= strtol qos <= 2
  /\ 1 <= strtol flash.
Proof.
  unfold formValidator. cbv zeta.
  pose proof (validate_int_range_spec qos 0 2) as Hq.
  pose proof (validate_int_range_spec flash 1 INT_MAX) as Hf.
  destruct (Z.ltb_spec (Z.of_nat (String.length server)) 3) as [Hs | Hs];
    destruct (validate_int_range qos 0 2);
    destruct (validate_int_range flash 1 INT_MAX);
    cbn [negb fst]; intros H; try discriminate H.
  split; [ lia | ]. split; [ tauto | ]. apply Hf. reflexivity.
Qed.

(** X10: the form validator checks all three fields on every call, not
    only up to the first failure.  It accepts exactly when the server name
    has at least 3 characters, the number read from the QoS field is 0, 1 or 2
    and the number read from the flash duration is at least 1 (there is no
    effective upper bound: a number beyond [INT_MAX] is read as [INT_MAX]);
    each field that fails, and no other, gets its error message. *)
Theorem form_validator_flags_each_failing_field :
  forall (server qos flash : string),
    let (valid, errors) := formValidator server qos flash in
    let serverOk := (3 <= String.length server)%nat in
    let qosOk := 0 <= strtol qos <= 2 in
    let flashOk := 1 <= strtol flash in
    (valid = true <-> serverOk /\ qosOk /\ flashOk)
    /\ (mqttServerError errors = None <-> serverOk)
    /\ (mqttQoSError errors = None <-> qosOk)
    /\ (rqFlashDurationError errors = None <-> flashOk).
Proof.
  intros server qos flash. unfold formValidator. cbv zeta.
  pose proof (validate_int_range_spec qos 0 2) as Hq.
  pose proof (validate_int_range_spec flash 1 INT_MAX) as Hf.
  pose proof (strtol_range flash) as Hr. unfold LONG_MAX, INT_MAX in *.
  destruct (Z.ltb_spec (Z.of_nat (String.length server)) 3) as [Hs | Hs];
    destruct (validate_int_range qos 0 2);
    destruct (validate_int_range flash 1 2147483647);
    cbn [negb mqttServerError mqttQoSError rqFlashDurationError];
    repeat split; intros; try discriminate; try lia; try tauto;
    try (exfalso; intuition (discriminate || lia)).
Qed.

(** X11: a form the validator accepted gives settings the relay code can
    use.  When the accepted texts are the stored configuration, [setup]
    computes a flash duration of at least 1 ms and a QoS of 0, 1 or 2. *)
Theorem accepted_form_gives_usable_settings :
  forall (server qos flash port tls user password retain name : string)
         (relayPin : Z) (buttonPin : option Z),
    fst (formValidator server qos flash) = true ->
    let cfg := fst (setup true name
                      (mkPortalValues flash server port tls user password
                                      retain qos)
                      relayPin buttonPin) in
    1 <= flashDuration cfg <= INT_MAX
    /\ (mqttQoS cfg = 0 \/ mqttQoS cfg = 1 \/ mqttQoS cfg = 2)
    /\ thingName cfg = name.
Proof.
  intros server qos flash port tls user password retain name relayPin
         buttonPin Hvalid cfg.
  destruct (form_validator_spec_aux server qos flash Hvalid)
    as (_ & Hq & Hf).
  unfold cfg, setup, atoi. cbn [negb fst flashDuration mqttQoS thingName
    rqFlashDurationValue mqttQoSValue].
  pose proof (strtol_range flash). unfold LONG_MAX, INT_MAX in *.
  repeat split; lia.
Qed.

Lemma accepted_form_witness :
  let cfg := fst (setup true "testThing"
                    (mkPortalValues "1000" "broker.local" "8883" "selected"
                                    "relay" "secret" "selected" "1")
                    0 None) in
  flashDuration cfg = 1000 /\ mqttQoS cfg = 1 /\ mqttRetain cfg = true
  /\ 1 <= flashDuration cfg <= INT_MAX.
Proof.
  split; [ reflexivity | ]. split; [ reflexivity | ].
  split; [ reflexivity | ].
  apply (accepted_form_gives_usable_settings
           "broker.local" "1" "1000" "8883" "selected" "relay" "secret"
           "selected" "testThing" 0 None).
  reflexivity.
Defined.

(** X12: the range check never rejects a text for not being a number.  A
    field that is empty or starts with anything but white space, a sign or
    a digit is read as 0, so such a QoS passes the validator's range check
    (as QoS 0) while such a flash duration fails it. *)
Theorem text_without_number_counts_as_zero :
  forall (arg : string),
    noNumber arg ->
    strtol arg = 0
    /\ validate_int_range arg 0 2 = true
    /\ validate_int_range arg 1 INT_MAX = false.
Proof.
  intros arg Hn. pose proof (strtol_noNumber arg Hn) as E.
  unfold validate_int_range. cbv zeta. rewrite E. repeat split.
Qed.

Lemma text_without_number_witness :
  validate_int_range "high" 0 2 = true
  /\ fst (formValidator "broker.local" "high" "1000") = true.
Proof.
  destruct (text_without_number_counts_as_zero "high") as (_ & H & _).
  - simpl. repeat split; discriminate.
  - split; [ exact H | reflexivity ].
Defined.

(** X13: the range check reads the leading number only.  Whatever follows
    the digits, from the first character that is not a digit on, changes
    neither the number read nor the verdict. *)
Theorem text_after_number_is_ignored :
  forall (digits rest : string) (min max : Z),
    allDigits digits = true ->
    digits <> EmptyString ->
    stopsNumber rest ->
    strtol (digits ++ rest) = strtol digits
    /\ validate_int_range (digits ++ rest) min max
       = validate_int_range digits min max.
Proof.
  intros digits rest min max Hall Hne Hstop.
  assert (E : strtol (digits ++ rest) = strtol digits).
  { destruct digits as [ | c ds ]; [ elim Hne; reflexivity | ].
    pose proof Hall as Hc. cbn [allDigits] in Hc.
    destruct (digit c) as [ d | ] eqn:Hd; [ | discriminate Hc ].
    change (String c ds ++ rest)%string with (String c (ds ++ rest)%string).
    rewrite !(strtol_digits c _ d Hd).
    change (String c (ds ++ rest)%string) with (String c ds ++ rest)%string.
    rewrite digitsValue_app by exact Hall.
    rewrite digitsValue_stop by exact Hstop. reflexivity. }
  split; [ exact E | ]. unfold validate_int_range. rewrite E. reflexivity.
Qed.

Lemma text_after_number_witness :
  strtol "2 (exactly once)" = 2
  /\ validate_int_range "2 (exactly once)" 0 2 = true.
Proof.
  destruct (text_after_number_is_ignored "2" " (exactly once)" 0 2)
    as (E & V); try reflexivity; try discriminate.
  change ("2" ++ " (exactly once)")%string with "2 (exactly once)" in E, V.
  rewrite E, V. split; reflexivity.
Defined.

(** X14: without a valid stored configuration nothing of the portal's
    buffers is used.  Whatever they hold, [setup] computes a flash duration
    of 0, QoS 0, no retain, port 0 and no TLS, so a [FLASH] on a device that
    was never configured waits 0 ms between switching on and off. *)
Theorem unconfigured_device_has_zero_settings :
  forall (name : string) (v : PortalValues) (relayPin : Z)
         (buttonPin : option Z) (s : St) (now : Z),
    let cfg := fst (setup false name v relayPin buttonPin) in
    let net := snd (setup false name v relayPin buttonPin) in
    flashDuration cfg = 0
    /\ mqttQoS cfg = 0
    /\ mqttRetain cfg = false
    /\ mqttPort net = 0
    /\ mqttTls net = false
    /\ (needAction s = FLASH_ACTION ->
        ACTION_FREQ_LIMIT < usub now (lastAction s) ->
        In (Delay 0) (trace (exec (actionStep cfg now) s)))
    /\ thingName cfg = name /\ RELAY_PIN cfg = relayPin
    /\ BUTTON_PIN cfg = buttonPin.
Proof.
  intros name v relayPin buttonPin s now cfg net.
  split; [ reflexivity | ]. split; [ reflexivity | ].
  split; [ reflexivity | ]. split; [ reflexivity | ].
  split; [ reflexivity | ]. split; [ | repeat split ].
  intros Hflash Hlt.
  assert (Hdue : commitDue now s = true).
  { apply commitDue_true; [ rewrite Hflash; discriminate | exact Hlt ]. }
  rewrite (actionStep_flash cfg now s Hdue Hflash). fields.
  apply in_or_app. right. apply in_or_app. right.
  apply in_or_app. left. left. reflexivity.
Qed.

(** ** The topics *)

Lemma substring_prefix (a b : string) (n : nat) :
  (n <= String.length a)%nat ->
  substring 0 n (a ++ b)%string = substring 0 n a.
Proof.
  revert n. induction a as [ | c a IH ]; intros n Hn.
  - simpl in Hn. replace n with 0%nat by lia. destruct b; reflexivity.
  - destruct n as [ | n ]; [ reflexivity | ].
    simpl in *. rewrite IH by lia. reflexivity.
Qed.

(** X15: for a device name of up to 112 characters [setup] builds the two
    topics in full, [devices/<name>/action] and [devices/<name>/status];
    they differ, the handler's test on the end of the topic accepts the first
    and rejects the second, so the sketch does not take its own status
    reports for commands. *)
Theorem topics_are_whole_and_distinct :
  forall (cfg : Config),
    (String.length (thingName cfg) <= 112)%nat ->
    mqttActionTopic cfg = ("devices/" ++ thingName cfg ++ "/action")%string
    /\ mqttStatusTopic cfg = ("devices/" ++ thingName cfg ++ "/status")%string
    /\ mqttActionTopic cfg <> mqttStatusTopic cfg
    /\ endsWith (mqttActionTopic cfg) "action" = true
    /\ endsWith (mqttStatusTopic cfg) "action" = false
    /\ (forall payload s,
           exec (mqttMessageReceived cfg (mqttStatusTopic cfg) payload) s = s).
Proof.
  intros cfg Hlen.
  assert (Ea : mqttActionTopic cfg
               = ("devices/" ++ thingName cfg ++ "/action")%string).
  { unfold mqttActionTopic, toCharArray, MQTT_TOPIC_PREFIX.
    apply substring_whole. rewrite !length_append. unfold STRING_LEN.
    simpl. lia. }
  assert (Es : mqttStatusTopic cfg
               = ("devices/" ++ thingName cfg ++ "/status")%string).
  { unfold mqttStatusTopic, toCharArray, MQTT_TOPIC_PREFIX.
    apply substring_whole. rewrite !length_append. unfold STRING_LEN.
    simpl. lia. }
  assert (Hs : endsWith (mqttStatusTopic cfg) "action" = false).
  { rewrite Es. change "/status" with ("/" ++ "status")%string.
    rewrite !append_assoc. unfold endsWith. rewrite length_append.
    change (String.length "action") with (String.length "status").
    replace (String.length (("devices/" ++ thingName cfg) ++ "/")
             + String.length "status" - String.length "status")%nat
      with (String.length (("devices/" ++ thingName cfg) ++ "/")) by lia.
    rewrite substring_suffix. apply andb_false_r. }
  pose proof (action_topic_accepted cfg Hlen) as Ha.
  split; [ exact Ea | ]. split; [ exact Es | ].
  split; [ intros E; rewrite E, Hs in Ha; discriminate Ha | ].
  split; [ exact Ha | ]. split; [ exact Hs | ].
  intros payload s. apply message_other_topic, Hs.
Qed.

Lemma topics_witness :
  mqttActionTopic esp01 = "devices/testThing/action"
  /\ mqttStatusTopic esp01 = "devices/testThing/status".
Proof.
  destruct (topics_are_whole_and_distinct esp01) as (Ea & Es & _).
  - simpl. lia.
  - rewrite Ea, Es. split; reflexivity.
Defined.

(** X16: the topic buffers hold 127 characters.  A device name of 119
    characters or more fills them before the suffix is reached, and the
    action topic and the status topic come out as the same text. *)
Theorem long_name_merges_topics :
  forall (cfg : Config),
    (119 <= String.length (thingName cfg))%nat ->
    mqttActionTopic cfg = mqttStatusTopic cfg
    /\ mqttActionTopic cfg
       = substring 0 127 ("devices/" ++ thingName cfg)%string.
Proof.
  intros cfg Hlen.
  assert (E : forall suffix,
             toCharArray (MQTT_TOPIC_PREFIX ++ thingName cfg ++ suffix)%string
                         STRING_LEN
             = substring 0 127 ("devices/" ++ thingName cfg)%string).
  { intros suffix. unfold toCharArray, MQTT_TOPIC_PREFIX, STRING_LEN.
    rewrite append_assoc.
    change (128 - 1)%nat with 127%nat.
    apply substring_prefix. rewrite length_append. simpl. lia. }
  unfold mqttActionTopic, mqttStatusTopic. rewrite !E. split; reflexivity.
Qed.

Lemma long_name_witness :
  mqttActionTopic crowded = mqttStatusTopic crowded
  /\ endsWith (mqttActionTopic crowded) "action" = false.
Proof.
  destruct (long_name_merges_topics crowded) as (E & _).
  - apply Nat.leb_le. reflexivity.
  - split; [ exact E | reflexivity ].
Defined.

Lemma unconfigured_device_witness :
  let cfg := fst (setup false "testThing"
                    (mkPortalValues "1000" "broker.local" "1883" "selected"
                                    "relay" "secret" "selected" "2")
                    0 None) in
  flashDuration cfg = 0
  /\ In (Delay 0)
        (trace (exec (actionStep cfg 7001)
                  (exec (mqttMessageReceived cfg "devices/testThing/action"
                           "FLASH") boot))).
Proof.
  intros cfg.
  destruct (unconfigured_device_has_zero_settings
              "testThing"
              (mkPortalValues "1000" "broker.local" "1883" "selected"
                              "relay" "secret" "selected" "2")
              0 None
              (exec (mqttMessageReceived cfg "devices/testThing/action"
                       "FLASH") boot)
              7001)
    as (Hfd & _ & _ & _ & _ & Hflash & _).
  split; [ exact Hfd | ].
  apply Hflash; [ reflexivity | vm_compute; reflexivity ].
Defined.

(** * The sketch before the fork *)

Section UpstreamHandler.

Variable cfg : Config.

Lemma upstream_message_exec (topic payload : string) (s : St) :
  exec (Upstream.mqttMessageReceived topic payload) s =
  if endsWith topic "action"
  then settle (exec (set_needAction
                       (if equals payload "ON" then HIGH else LOW)) s)
  else s.
Proof.
  unfold Upstream.mqttMessageReceived.
  destruct (endsWith topic "action"); [ | reflexivity ].
  unfold when at 1. rewrite exec_seq, exec_bind. cbn [get fst snd].
  rewrite exec_when. reflexivity.
Qed.

Lemma upstream_commit_held (now : Z) (s : St) :
  commitDue now s = false -> exec (Upstream.commitStep cfg now) s = s.
Proof.
  unfold commitDue. intros H. unfold Upstream.commitStep.
  rewrite exec_bind. cbn [get fst snd]. rewrite H. reflexivity.
Qed.

Lemma upstream_commit_fired (now : Z) (s : St) :
  commitDue now s = true ->
  exec (Upstream.commitStep cfg now) s =
  mkSt (needMqttConnect s) (needReset s) (lastMqttConnectionAttempt s)
       NO_ACTION (needAction s) now (restarted s)
       (trace s ++
        [DigitalWrite (RELAY_PIN cfg) (needAction s);
         (if needAction s =? HIGH then Blink 5000 95 else StopCustomBlink);
         Publish (Upstream.mqttStatusTopic cfg) (statusText (needAction s))
                 (mqttRetain cfg) (mqttQoS cfg);
         Publish (Upstream.mqttActionTopic cfg) (statusText (needAction s))
                 (mqttRetain cfg) (mqttQoS cfg)]).
Proof.
  unfold commitDue. intros H. unfold Upstream.commitStep, statusText.
  rewrite exec_bind. cbn [get fst snd]. rewrite H. cbn [when].
  unfold_prog. cbn [fst snd needMqttConnect needReset
    lastMqttConnectionAttempt needAction state lastAction restarted trace].
  destruct (needAction s =? HIGH) eqn:E;
    cbn [fst snd needMqttConnect needReset lastMqttConnectionAttempt
         needAction state lastAction restarted trace];
    rewrite ?E, <- !app_assoc; reflexivity.
Qed.

End UpstreamHandler.

(** X17: the sketch under [src/] knows one command.  On the action topic,
    every payload other than [ON] does what [OFF] does: it asks for the
    relay to be switched off, or empties the slot when the relay is off
    already. *)
Theorem upstream_anything_but_on_means_off :
  forall (topic payload : string) (s : St),
    payload <> "ON" ->
    endsWith topic "action" = true ->
    let s' := exec (Upstream.mqttMessageReceived topic payload) s in
    s' = exec (Upstream.mqttMessageReceived topic "OFF") s
    /\ needAction s' = (if state s =? LOW then NO_ACTION else LOW)
    /\ state s' = state s /\ trace s' = trace s.
Proof.
  intros topic payload s Hp Ht s'. unfold s'.
  rewrite !upstream_message_exec, Ht. unfold equals.
  destruct (String.eqb_spec payload "ON") as [E | _]; [ elim Hp; exact E | ].
  cbn [String.eqb Ascii.eqb Bool.eqb andb]. rewrite settle_exec. fields.
  split; [ reflexivity | ].
  rewrite (Z.eqb_sym LOW). repeat split.
Qed.

Lemma upstream_anything_but_on_witness :
  let s := exec (Upstream.commitStep esp01 7001)
             (exec (Upstream.mqttMessageReceived "/devices/testThing/action"
                      "ON") boot) in
  state s = HIGH
  /\ needAction (exec (Upstream.mqttMessageReceived
                         "/devices/testThing/action" "TOGGLE") s) = LOW.
Proof.
  intros s. split; [ reflexivity | ].
  destruct (upstream_anything_but_on_means_off
              "/devices/testThing/action" "TOGGLE" s)
    as (_ & Hn & _).
  - discriminate.
  - reflexivity.
  - rewrite Hn. reflexivity.
Defined.

(** X18: the sketch under [src/] publishes every new relay state on the
    action topic too, the topic it listens to.  When that message comes
    back, it matches the relay state and empties the slot: a command that
    arrived between the commit and the echo is lost without a trace. *)
Theorem upstream_echo_cancels_pending_command :
  forall (cfg : Config) (s : St) (now : Z) (topic payload : string),
    commitDue now s = true ->
    needAction s = HIGH \/ needAction s = LOW ->
    endsWith topic "action" = true ->
    let s1 := exec (Upstream.commitStep cfg now) s in
    let echo := statusText (state s1) in
    let s2 := exec (Upstream.mqttMessageReceived topic payload) s1 in
    let s3 := exec (Upstream.mqttMessageReceived topic echo) s2 in
    last (trace s1) Restart
      = Publish (Upstream.mqttActionTopic cfg) echo
                (mqttRetain cfg) (mqttQoS cfg)
    /\ needAction s3 = NO_ACTION
    /\ state s3 = state s1
    /\ trace s3 = trace s1.
Proof.
  intros cfg s now topic payload Hdue Hv Ht s1 echo s2 s3.
  assert (E1 : state s1 = needAction s /\ exists before,
               trace s1 = before ++ [Publish (Upstream.mqttActionTopic cfg)
                                       (statusText (needAction s))
                                       (mqttRetain cfg) (mqttQoS cfg)]).
  { unfold s1. rewrite (upstream_commit_fired cfg now s Hdue). fields.
    split; [ reflexivity | ].
    eexists (trace s ++ [_; _; _]). rewrite <- app_assoc. reflexivity. }
  destruct E1 as (Hst & before & Htr).
  split.
  { rewrite Htr, last_last. unfold echo. rewrite Hst. reflexivity. }
  unfold s3, s2. rewrite !upstream_message_exec, Ht, !settle_exec. fields.
  unfold echo, statusText, equals. rewrite Hst.
  destruct Hv as [-> | ->]; cbn [Z.eqb HIGH LOW String.eqb Ascii.eqb Bool.eqb];
    repeat split.
Qed.

Lemma upstream_echo_witness :
  let s := exec (Upstream.mqttMessageReceived "/devices/testThing/action"
                   "ON") boot in
  let s1 := exec (Upstream.commitStep esp01 7001) s in
  let s2 := exec (Upstream.mqttMessageReceived "/devices/testThing/action"
                    "OFF") s1 in
  let s3 := exec (Upstream.mqttMessageReceived "/devices/testThing/action"
                    "ON") s2 in
  needAction s2 = LOW /\ needAction s3 = NO_ACTION /\ state s3 = HIGH.
Proof.
  intros s s1 s2 s3. split; [ reflexivity | ].
  destruct (upstream_echo_cancels_pending_command
              esp01 s 7001 "/devices/testThing/action" "OFF")
    as (_ & Hn & Hst & _).
  - reflexivity.
  - left. reflexivity.
  - reflexivity.
  - split; [ exact Hn | exact (eq_trans Hst eq_refl) ].
Defined.

(** ** Connection attempts of the sketch before the fork *)

Lemma combine_snoc {A B} (l1 : list A) (l2 : list B) (a : A) (b : B) :
  List.length l1 = List.length l2 ->
  combine (l1 ++ [a]) (l2 ++ [b]) = combine l1 l2 ++ [(a, b)].
Proof.
  revert l2. induction l1 as [ | x l1 IH ]; intros [ | y l2 ] Hlen;
    try discriminate Hlen; [ reflexivity | ].
  simpl. rewrite IH by (simpl in Hlen; lia). reflexivity.
Qed.

Lemma retryPaced_snoc (l : list (Z * bool)) (b : Z) (ok : bool) :
  Upstream.retryPaced l ->
  (forall a, last l (0, true) = (a, false) -> 1000 <= b - a) ->
  Upstream.retryPaced (l ++ [(b, ok)]).
Proof.
  induction l as [ | [a oka] l IH ]; intros Hp Hlast.
  - simpl. tauto.
  - destruct l as [ | [c okc] l ].
    + simpl. split; [ | tauto ]. intros ->. apply Hlast. reflexivity.
    + destruct Hp as (Hac & Hp).
      change (((a, oka) :: (c, okc) :: l) ++ [(b, ok)])
        with ((a, oka) :: ((c, okc) :: l) ++ [(b, ok)]).
      split; [ exact Hac | ]. apply IH; [ exact Hp | ].
      intros a' Ha'. apply Hlast. exact Ha'.
Qed.

Lemma retry_inv_frame (lo : Z) (s s' : St) :
  conn_frame s s' -> retry_inv lo s -> retry_inv lo s'.
Proof.
  unfold retry_inv, Upstream.attemptLog. intros (Ha & Hc & Hl) H.
  rewrite Ha, Hc, Hl. exact H.
Qed.

Lemma retry_inv_weaken (lo lo' : Z) (s : St) :
  lo <= lo' -> retry_inv lo s -> retry_inv lo' s.
Proof.
  unfold retry_inv. intros Hle (H1 & H2 & H3 & H4 & H5).
  split; [ exact H1 | ]. split; [ exact H2 | ]. split; [ lia | ].
  split; [ | exact H5 ]. intros a ok E. specialize (H4 a ok E). lia.
Qed.

Section UpstreamPace.

Variable cfg : Config.

Lemma upstream_connect_early (t now : Z) (ok : bool) (s : St) :
  usub now (lastMqttConnectionAttempt s) < 1000 ->
  Upstream.connectMqtt cfg t now ok s = (false, s).
Proof.
  intros H. unfold Upstream.connectMqtt, bind, get.
  apply Z.gtb_lt in H. rewrite H. reflexivity.
Qed.

Lemma upstream_connect_refused (t now : Z) (s : St) :
  1000 <= usub now (lastMqttConnectionAttempt s) ->
  Upstream.connectMqtt cfg t now false s =
  (false,
   mkSt (needMqttConnect s) (needReset s) now
        (needAction s) (state s) (lastAction s) (restarted s)
        (trace s ++ [MqttReconnect t; Connect false])).
Proof.
  intros H. unfold Upstream.connectMqtt, bind, get.
  assert (E : (1000 >? usub now (lastMqttConnectionAttempt s)) = false).
  { rewrite Z.gtb_ltb. apply Z.ltb_ge. exact H. }
  rewrite E. unfold_prog. cbn [fst snd needMqttConnect needReset
    lastMqttConnectionAttempt needAction state lastAction restarted trace
    negb].
  rewrite <- app_assoc. reflexivity.
Qed.

Lemma upstream_connect_accepted (t now : Z) (s : St) :
  1000 <= usub now (lastMqttConnectionAttempt s) ->
  Upstream.connectMqtt cfg t now true s =
  (true,
   mkSt (needMqttConnect s) (needReset s) (lastMqttConnectionAttempt s)
        (needAction s) (state s) (lastAction s) (restarted s)
        (trace s ++ [MqttReconnect t; Connect true;
                     Subscribe (Upstream.mqttActionTopic cfg);
                     Publish (Upstream.mqttStatusTopic cfg)
                             (statusText (state s))
                             (mqttRetain cfg) (mqttQoS cfg);
                     Publish (Upstream.mqttActionTopic cfg)
                             (statusText (state s))
                             (mqttRetain cfg) (mqttQoS cfg)])).
Proof.
  intros H. unfold Upstream.connectMqtt, bind, get, statusText.
  assert (E : (1000 >? usub now (lastMqttConnectionAttempt s)) = false).
  { rewrite Z.gtb_ltb. apply Z.ltb_ge. exact H. }
  rewrite E. unfold_prog. cbn [fst snd needMqttConnect needReset
    lastMqttConnectionAttempt needAction state lastAction restarted trace
    negb].
  rewrite <- !app_assoc. reflexivity.
Qed.

(** One call of [connectMqtt] keeps the pace. *)
Lemma upstream_connect_inv (lo : Z) (i : Tick) (s : St) :
  retry_inv lo s -> lo <= t1 i ->
  retry_inv (t1 i)
    (snd (Upstream.connectMqtt cfg (t1 i) (millis (t1 i)) (connectOk i) s)).
Proof.
  intros Hinv Hlo.
  destruct (Z_lt_le_dec (usub (millis (t1 i)) (lastMqttConnectionAttempt s))
                        1000) as [Hearly | Hlate].
  { rewrite upstream_connect_early by exact Hearly.
    exact (retry_inv_weaken lo (t1 i) s Hlo Hinv). }
  destruct Hinv as (Hlen & Hp & H0 & Hlast & Hstamp).
  assert (Hnew : forall ok rest stamp,
            attempts rest = [] -> connects rest = [] ->
            (ok = false -> stamp = millis (t1 i)) ->
            retry_inv (t1 i)
              (mkSt (needMqttConnect s) (needReset s) stamp
                    (needAction s) (state s) (lastAction s) (restarted s)
                    (trace s ++ MqttReconnect (t1 i) :: Connect ok :: rest))).
  { intros ok rest stamp Ha Hc Hs. unfold retry_inv, Upstream.attemptLog.
    fields. rewrite attempts_app, connects_app. simpl. rewrite Ha, Hc.
    rewrite combine_snoc by exact Hlen. rewrite last_last, !length_app.
    split; [ simpl; lia | ].
    split.
    { apply retryPaced_snoc; [ exact Hp | ]. intros a Ea.
      pose proof (Hlast a false Ea) as Hr. rewrite (Hstamp a Ea) in Hlate.
      pose proof (usub_millis_le a (t1 i) ltac:(lia)). lia. }
    split; [ lia | ].
    split.
    - intros a ok' E. injection E as <- _. lia.
    - intros a E. injection E as <- ->. apply Hs. reflexivity. }
  destruct (connectOk i).
  - rewrite upstream_connect_accepted by exact Hlate. cbn [snd].
    apply Hnew; [ reflexivity | reflexivity | discriminate ].
  - rewrite upstream_connect_refused by exact Hlate. cbn [snd].
    apply Hnew; [ reflexivity | reflexivity | reflexivity ].
Qed.

Lemma upstream_connectStep_inv (lo : Z) (i : Tick) (s : St) :
  retry_inv lo s -> lo <= t1 i ->
  retry_inv (t1 i) (exec (Upstream.connectStep cfg i) s).
Proof.
  intros Hinv Hlo. pose proof (upstream_connect_inv lo i s Hinv Hlo) as Hc.
  unfold Upstream.connectStep. rewrite exec_bind. cbn [get fst snd].
  destruct (needMqttConnect s).
  - rewrite exec_bind.
    destruct (Upstream.connectMqtt cfg (t1 i) (millis (t1 i)) (connectOk i) s)
      as (ok, s1).
    cbn [fst snd] in *. destruct ok; [ | exact Hc ].
    apply retry_inv_frame with (s := s1); [ | exact Hc ].
    unfold conn_frame. fields. tauto.
  - destruct (online i && negb (connected i)).
    + rewrite exec_bind. exact Hc.
    + exact (retry_inv_weaken lo (t1 i) s Hlo Hinv).
Qed.

Lemma upstream_message_conn_frame (topic payload : string) (s : St) :
  conn_frame s (exec (Upstream.mqttMessageReceived topic payload) s).
Proof.
  rewrite upstream_message_exec.
  destruct (endsWith topic "action"); [ | apply conn_frame_refl ].
  rewrite settle_exec. unfold conn_frame. fields. tauto.
Qed.

Lemma upstream_deliver_conn_frame (msgs : list (string * string)) (s : St) :
  conn_frame s (exec (Upstream.deliver msgs) s).
Proof.
  revert s. induction msgs as [ | [topic payload] rest IH ]; intros s.
  - apply conn_frame_refl.
  - simpl. rewrite exec_seq.
    eapply conn_frame_trans; [ apply upstream_message_conn_frame | apply IH ].
Qed.

Lemma upstream_tail_conn_frame (i : Tick) (s : St) :
  conn_frame s
    (exec (Upstream.commitStep cfg (millis (t2 i)))
       (exec (Upstream.buttonStep (buttonLow i) (millis (t2 i))) s)).
Proof.
  apply conn_frame_trans
    with (s2 := exec (Upstream.buttonStep (buttonLow i) (millis (t2 i))) s).
  - unfold Upstream.buttonStep. rewrite exec_bind. cbn [get fst snd].
    rewrite exec_when. destruct (buttonLow i && _).
    + unfold conn_frame. fields. split; [ reflexivity | ]. tauto.
    + apply conn_frame_refl.
  - set (sb := exec (Upstream.buttonStep _ _) s).
    destruct (commitDue (millis (t2 i)) sb) eqn:Hdue.
    + rewrite (upstream_commit_fired cfg _ sb Hdue).
      eapply conn_frame_quiet; fields; try reflexivity.
      * simpl. destruct (needAction sb =? HIGH); reflexivity.
      * simpl. destruct (needAction sb =? HIGH); reflexivity.
    + rewrite (upstream_commit_held cfg _ sb Hdue). apply conn_frame_refl.
Qed.

Lemma upstream_loop_inv (lo : Z) (i : Tick) (s : St) :
  retry_inv lo s -> lo <= t1 i -> t1 i <= t2 i ->
  retry_inv (t2 i) (exec (Upstream.loop cfg i) s).
Proof.
  intros Hinv Hlo H12. unfold Upstream.loop.
  rewrite !exec_seq, exec_bind. cbn [get fst snd].
  set (s2 := exec (Upstream.deliver (inbox i)) (exec (doLoop i) s)).
  assert (H2 : retry_inv lo s2).
  { apply retry_inv_frame with (s := s); [ | exact Hinv ].
    eapply conn_frame_trans;
      [ apply doLoop_conn_frame | apply upstream_deliver_conn_frame ]. }
  pose proof (upstream_connectStep_inv lo i s2 H2 Hlo) as H3.
  set (s3 := exec (Upstream.connectStep cfg i) s2) in *.
  apply retry_inv_weaken with (lo := t1 i); [ exact H12 | ].
  apply retry_inv_frame with (s := s3); [ | exact H3 ].
  destruct (needReset s3).
  - apply reboot_conn_frame.
  - rewrite exec_seq. apply upstream_tail_conn_frame.
Qed.

Lemma upstream_run_inv (ticks : list Tick) (lo : Z) (s : St) :
  retry_inv lo s -> chronological lo ticks ->
  exists lo', retry_inv lo' (Upstream.run cfg ticks s).
Proof.
  revert lo s. induction ticks as [ | i rest IH ]; intros lo s Hinv Hc; simpl.
  - exists lo. exact Hinv.
  - destruct (restarted s); [ exists lo; exact Hinv | ].
    destruct Hc as (Hlo & H12 & Hrest).
    apply (IH (t2 i)); [ | exact Hrest ].
    apply upstream_loop_inv with (lo := lo); assumption.
Qed.

End UpstreamPace.

(** X19: in the sketch under [src/] the rate limit sits in [connectMqtt]
    and counts from the last refused connection.  In a boot session whose
    clock never goes back, an attempt that follows a refused one comes at
    least 1000 ms after it; after an accepted connection the next attempt is
    not held back.  Every attempt is one call of [mqttClient.connect]. *)
Theorem upstream_retries_are_paced :
  forall (cfg : Config) (ticks : list Tick),
    chronological 0 ticks ->
    let tr := trace (Upstream.run cfg ticks boot) in
    Upstream.retryPaced (Upstream.attemptLog tr)
    /\ List.length (attempts tr) = List.length (connects tr).
Proof.
  intros cfg ticks Hc tr.
  destruct (upstream_run_inv cfg ticks 0 boot) as (lo & Hlen & Hp & _).
  - unfold retry_inv, Upstream.attemptLog, boot. simpl.
    split; [ reflexivity | ]. split; [ exact I | ]. split; [ lia | ].
    split.
    + intros a ok E. injection E as <- _. lia.
    + intros a E. discriminate E.
  - exact Hc.
  - split; [ exact Hp | exact Hlen ].
Qed.

Lemma upstream_retries_witness :
  Upstream.attemptLog
    (trace (Upstream.run esp01
              [offline 400 false; offline 1000 false; offline 1500 false;
               offline 2000 true; offline 2001 false; offline 2002 false;
               offline 3001 false] boot))
  = [(1000, false); (2000, true); (2001, false); (3001, false)]
  /\ Upstream.retryPaced
       [(1000, false); (2000, true); (2001, false); (3001, false)].
Proof.
  assert (E : Upstream.attemptLog
                (trace (Upstream.run esp01
                          [offline 400 false; offline 1000 false;
                           offline 1500 false; offline 2000 true;
                           offline 2001 false; offline 2002 false;
                           offline 3001 false] boot))
              = [(1000, false); (2000, true); (2001, false); (3001, false)])
    by reflexivity.
  split; [ exact E | ]. rewrite <- E.
  apply (upstream_retries_are_paced esp01).
  vm_compute. intuition discriminate.
Defined.

(** ** Numbers written and read back *)

Lemma digitsValue_uint (d a : Decimal.uint) :
  digitsValue (Z.of_N (DecimalPos.Unsigned.of_lu a))
              (NilEmpty.string_of_uint d)
  = Z.of_N (DecimalPos.Unsigned.of_lu (Decimal.revapp d a)).
Proof.
  revert a. induction d as [ | d IH | d IH | d IH | d IH | d IH | d IH
                             | d IH | d IH | d IH | d IH ]; intros a;
    [ reflexivity | .. ];
    cbn [NilEmpty.string_of_uint Decimal.revapp digitsValue];
    change (digit _) with (Some 0) || change (digit _) with (Some 1)
    || change (digit _) with (Some 2) || change (digit _) with (Some 3)
    || change (digit _) with (Some 4) || change (digit _) with (Some 5)
    || change (digit _) with (Some 6) || change (digit _) with (Some 7)
    || change (digit _) with (Some 8) || change (digit _) with (Some 9);
    rewrite <- IH; f_equal;
    cbn [DecimalPos.Unsigned.of_lu]; lia.
Qed.

Lemma digitsValue_to_uint (p : positive) :
  digitsValue 0 (NilEmpty.string_of_uint (Pos.to_uint p)) = Z.pos p.
Proof.
  pose proof (digitsValue_uint (Pos.to_uint p) Decimal.Nil) as H.
  cbn [DecimalPos.Unsigned.of_lu Z.of_N] in H. rewrite H.
  change (Decimal.revapp (Pos.to_uint p) Decimal.Nil)
    with (Decimal.rev (Pos.to_uint p)).
  rewrite <- DecimalPos.Unsigned.of_uint_alt, DecimalPos.Unsigned.of_to.
  reflexivity.
Qed.

(** The decimal text of a positive number starts with a digit. *)
Lemma to_uint_text (p : positive) :
  exists c rest d,
    NilZero.string_of_uint (Pos.to_uint p) = String c rest
    /\ NilEmpty.string_of_uint (Pos.to_uint p) = String c rest
    /\ digit c = Some d.
Proof.
  pose proof (DecimalPos.Unsigned.to_uint_nonnil p) as Hn.
  destruct (Pos.to_uint p); [ elim Hn; reflexivity | .. ];
    do 3 eexists; (split; [ reflexivity | split; reflexivity ]).
Qed.

Lemma strtol_dec (z : Z) : strtol (dec z) = clamp z.
Proof.
  unfold dec. destruct z as [ | p | p ].
  - reflexivity.
  - cbn [Z.to_int NilZero.string_of_int].
    destruct (to_uint_text p) as (c & rest & d & E0 & E & Hd).
    rewrite E0, (strtol_digits c rest d Hd), <- E, digitsValue_to_uint.
    reflexivity.
  - cbn [Z.to_int NilZero.string_of_int].
    destruct (to_uint_text p) as (c & rest & d & E0 & E & Hd).
    unfold strtol. cbn [skipSpace].
    change (isspace "-") with false. cbv iota.
    rewrite E0, <- E, digitsValue_to_uint. reflexivity.
Qed.

(** X20: a number printed with [%d] and read back with [strtol] or [atoi]
    is the same number, for every value of a 32-bit [int].  In particular
    the [flash=] and [QoS=] fields of the [HELLO] line read back as the
    settings that [setup] computed, whatever the stored configuration. *)
Theorem printed_number_reads_back :
  forall (z : Z) (validConfig : bool) (name : string) (v : PortalValues)
         (relayPin : Z) (buttonPin : option Z),
    LONG_MIN <= z <= LONG_MAX ->
    let cfg := fst (setup validConfig name v relayPin buttonPin) in
    strtol (dec z) = z
    /\ atoi (dec (flashDuration cfg)) = flashDuration cfg
    /\ atoi (dec (mqttQoS cfg)) = mqttQoS cfg.
Proof.
  intros z validConfig name v relayPin buttonPin Hz cfg.
  split; [ rewrite strtol_dec; apply clamp_small, Hz | ].
  unfold atoi, cfg, setup. cbn [fst flashDuration mqttQoS].
  rewrite !strtol_dec. unfold atoi.
  split; apply clamp_small, strtol_range.
Qed.

Lemma printed_number_witness :
  dec (-2147483648) = "-2147483648" /\ strtol "-2147483648" = -2147483648.
Proof.
  split; [ reflexivity | ].
  destruct (printed_number_reads_back (-2147483648) true "testThing"
              (mkPortalValues "1000" "broker.local" "1883" "selected"
                              "relay" "secret" "selected" "1")
              0 None) as (H & _).
  - unfold LONG_MIN, LONG_MAX. lia.
  - exact H.
Defined.

(** ** A command that has to wait *)

Section Waiting.

Variable cfg : Config.

Lemma run_app (a b : list Tick) (s : St) :
  run cfg (a ++ b) s = run cfg b (run cfg a s).
Proof.
  revert s. induction a as [ | i a IH ]; intros s; [ reflexivity | ].
  simpl. destruct (restarted s) eqn:E; [ | apply IH ].
  destruct b; simpl; [ | rewrite E ]; reflexivity.
Qed.

(** The state in front of the commit step in a quiet pass. *)
Lemma quiet_before_commit (i : Tick) (s : St) :
  quiet i -> needReset s = false ->
  exists s3,
    exec (loop cfg i) s = exec (actionStep cfg (millis (t2 i))) s3
    /\ relayView s3 = relayView s.
Proof.
  intros (Hin & Hc & Hb) Hnr. rewrite loop_exec. cbv zeta.
  rewrite Hin, Hb. cbn [deliver]. rewrite exec_ret.
  set (s1 := exec (doLoop i) s).
  assert (H1 : relayView s1 = relayView s).
  { unfold s1. rewrite doLoop_exec, Hc. cbv zeta.
    destruct (wifiJustConnected i); reflexivity. }
  set (s3 := exec (reconnectStep cfg i) s1).
  assert (H3 : relayView s3 = relayView s).
  { unfold s3. rewrite reconnect_relayView. exact H1. }
  pose proof H3 as H3'. apply relayView_eq in H3'.
  destruct H3' as (_ & _ & _ & Hnr3 & _). rewrite Hnr3, Hnr.
  exists s3. split; [ | exact H3 ].
  rewrite buttonStep_exec. destruct (BUTTON_PIN cfg); reflexivity.
Qed.

Lemma quiet_loop_held (i : Tick) (s : St) :
  quiet i -> needReset s = false ->
  usub (millis (t2 i)) (lastAction s) <= ACTION_FREQ_LIMIT ->
  relayView (exec (loop cfg i) s) = relayView s.
Proof.
  intros Hq Hnr Hle.
  destruct (quiet_before_commit i s Hq Hnr) as (s3 & -> & H3).
  pose proof H3 as H3'. apply relayView_eq in H3'.
  destruct H3' as (_ & _ & Hla & _).
  rewrite actionStep_held; [ exact H3 | ].
  apply commitDue_false. rewrite Hla. exact Hle.
Qed.

Lemma quiet_run_held (ticks : list Tick) (s s0 : St) :
  needReset s = false -> restarted s = false ->
  Forall (fun j => quiet j
                   /\ usub (millis (t2 j)) (lastAction s) <= ACTION_FREQ_LIMIT)
         ticks ->
  relayView s0 = relayView s ->
  relayView (run cfg ticks s0) = relayView s.
Proof.
  intros Hnr Hrs Hall. revert s0.
  induction Hall as [ | j rest (Hq & Hle) _ IH ]; intros s0 H0.
  - exact H0.
  - simpl. pose proof H0 as H0'. apply relayView_eq in H0'.
    destruct H0' as (_ & _ & _ & _ & Hrs0). rewrite Hrs0, Hrs.
    apply IH.
    rewrite (loop_relayView cfg j j s0 s) by (repeat split; assumption).
    apply quiet_loop_held; assumption.
Qed.

Lemma quiet_loop_commits (i : Tick) (s : St) :
  quiet i -> needReset s = false -> pending s ->
  ACTION_FREQ_LIMIT < usub (millis (t2 i)) (lastAction s) ->
  let s' := exec (loop cfg i) s in
  state s' = commitResult s /\ needAction s' = NO_ACTION
  /\ lastAction s' = millis (t2 i).
Proof.
  intros Hq Hnr Hp Hlt.
  destruct (quiet_before_commit i s Hq Hnr) as (s3 & E & H3).
  cbv zeta. rewrite E. apply relayView_eq in H3.
  destruct H3 as (_ & Hna & Hla & _).
  assert (Hdue : commitDue (millis (t2 i)) s3 = true).
  { apply commitDue_true; rewrite ?Hna, ?Hla;
      [ apply pending_not_empty, Hp | exact Hlt ]. }
  unfold commitResult. rewrite <- Hna.
  destruct Hp as [Hv | [Hv | Hv]]; rewrite <- Hna in Hv.
  - rewrite (actionStep_target cfg _ s3 Hdue) by (rewrite Hv; constants; lia).
    rewrite Hv. fields. repeat split.
  - rewrite (actionStep_target cfg _ s3 Hdue) by (rewrite Hv; constants; lia).
    rewrite Hv. fields. repeat split.
  - rewrite (actionStep_flash cfg _ s3 Hdue Hv).
    rewrite Hv. fields. repeat split.
Qed.

End Waiting.

(** X21: a command that arrives inside the debounce window waits in the
    slot and is carried out by the first pass past the window.  Over any
    number of quiet passes (no message, no saved configuration, button up)
    whose clock is within the window, the relay state, the slot and the time
    of the last commit do not move, whatever the connection does; the first
    quiet pass whose clock is past the window commits the command. *)
Theorem deferred_command_is_committed_after_window :
  forall (cfg : Config) (ticks : list Tick) (i : Tick) (s : St),
    pending s ->
    needReset s = false ->
    restarted s = false ->
    Forall (fun j => quiet j
                     /\ usub (millis (t2 j)) (lastAction s)
                        <= ACTION_FREQ_LIMIT) ticks ->
    quiet i ->
    ACTION_FREQ_LIMIT < usub (millis (t2 i)) (lastAction s) ->
    let s' := run cfg (ticks ++ [i]) s in
    relayView (run cfg ticks s) = relayView s
    /\ state s' = commitResult s
    /\ needAction s' = NO_ACTION
    /\ lastAction s' = millis (t2 i).
Proof.
  intros cfg ticks i s Hp Hnr Hrs Hall Hq Hlt s'.
  pose proof (quiet_run_held cfg ticks s s Hnr Hrs Hall eq_refl) as Hheld.
  split; [ exact Hheld | ].
  unfold s'. rewrite run_app. set (s1 := run cfg ticks s) in *.
  pose proof Hheld as H1. apply relayView_eq in H1.
  destruct H1 as (_ & _ & _ & _ & Hrs1).
  cbn [run]. rewrite Hrs1, Hrs.
  pose proof (loop_relayView cfg i i s1 s
                (conj eq_refl (conj eq_refl (conj eq_refl eq_refl))) Hheld)
    as Hsame.
  apply relayView_eq in Hsame. destruct Hsame as (Hst & Hna & Hla & _).
  rewrite Hst, Hna, Hla. apply quiet_loop_commits; assumption.
Qed.

Lemma deferred_command_witness :
  let s := exec (mqttMessageReceived esp01 "devices/testThing/action" "ON")
             boot in
  let s' := run esp01 ([offline 1000 false; offline 4000 false;
                        offline 7000 true] ++ [offline 7001 false]) s in
  state s' = HIGH /\ needAction s' = NO_ACTION /\ lastAction s' = 7001.
Proof.
  intros s s'.
  destruct (deferred_command_is_committed_after_window
              esp01 [offline 1000 false; offline 4000 false; offline 7000 true]
              (offline 7001 false) s)
    as (_ & Hst & Hna & Hla).
  - left. reflexivity.
  - reflexivity.
  - reflexivity.
  - repeat constructor; vm_compute; discriminate.
  - repeat split.
  - vm_compute. reflexivity.
  - fold s' in Hst, Hna, Hla. rewrite Hst, Hna, Hla. repeat split.
Defined.
